(** * GPy.likelihoods.bernoulli: a shallow embedding and its properties

  The module [GPy/likelihoods/bernoulli.py] defines the class [Bernoulli],
  a likelihood for binary observations. This development embeds its
  methods as Rocq functions and proves (or refutes) statements about them.

  Numbers. numpy's binary64 values are modelled by exact reals extended
  with the two infinities and not-a-number ([fnum]). Every primitive
  operation returns its value together with the floating-point condition
  it signals (divide by zero, invalid). Rounding, overflow, underflow and
  the sign of zero are outside the model: there is one zero, so where the
  code divides by a negative zero the infinity it gets has the sign opposite
  to the model's; the properties proved of the methods leave the sign of
  such an infinity open.

  Operands. The likelihood methods take what [np.atleast_1d] takes. Two
  kinds of operand are modelled: a Python number and a numpy array (a numpy
  scalar is a 0-d array). They differ in their arithmetic: Python's division
  by zero raises [ZeroDivisionError], numpy's signals a condition. Lists and
  other sequences are outside the model.

  Effects. Python exceptions and the process-wide numpy error-reporting
  settings ([np.seterr], [np.seterrcall]) are modelled by a
  state-and-exception monad in which a raised exception keeps the state
  reached so far. What a report does is decided by its mode, by the handler
  installed and, for mode ['warn'], by whether Python's warning filter turns
  warnings into exceptions; all three are part of the state.

  Arrays in the object store carry a dtype, since the value an assignment
  stores depends on it. *)

From Stdlib Require Import Reals Lra List String Arith Lia Bool.
Import ListNotations.

(* ===================================================================== *)
(** ** Python exceptions and the state-and-exception monad *)
(* ===================================================================== *)

Module Py.

(** The exception classes the module can raise. *)
Inductive exn : Type :=
| AssertionError (msg : string)
| ValueError (msg : string)
| NotImplementedError
| NameError (name : string)
| AttributeError (attr : string)
| IndexError
| FloatingPointError
| ZeroDivisionError
| RuntimeWarning
| TypeError.

Inductive result (A : Type) : Type :=
| Ok (a : A)
| Raise (e : exn).
Arguments Ok {A} a.
Arguments Raise {A} e.

(** A computation over a state [S]: it ends in a value or an exception,
    and in both cases in a state. *)
Definition M (S A : Type) : Type := S -> result A * S.

Definition ret {S A} (a : A) : M S A := fun s => (Ok a, s).

Definition bind {S A B} (c : M S A) (k : A -> M S B) : M S B :=
  fun s =>
    match c s with
    | (Ok a, s') => k a s'
    | (Raise e, s') => (Raise e, s')
    end.

Definition raise {S A} (e : exn) : M S A := fun s => (Raise e, s).

(** [assert cond, msg] *)
Definition assert_ {S} (cond : bool) (msg : string) : M S unit :=
  if cond then ret tt else raise (AssertionError msg).

Definition is_ok {A} (r : result A) : bool :=
  match r with Ok _ => true | Raise _ => false end.

End Py.
Export Py.

Declare Scope py_scope.
Delimit Scope py_scope with py.
Notation "x <- c ;; k" := (bind c (fun x => k))
(at level 61, c at next level, right associativity) : py_scope.
Notation "c ;;; k" := (bind c (fun _ => k))
(at level 61, right associativity) : py_scope.

(* ===================================================================== *)
(** ** Floating-point values and conditions *)
(* ===================================================================== *)

Module FP.
Local Open Scope R_scope.

(** A binary64 value, idealised: a real, an infinity, or not-a-number. *)
Inductive fnum : Type :=
| Fin (r : R)
| PInf
| NInf
| NaN.

(** The condition an operation signals, if any. *)
Inductive fpcond : Type :=
| NoCond
| DivideCond     (* division by zero: a finite operand, an infinite result *)
| InvalidCond.   (* no defined result: NaN produced from non-NaN operands *)

Definition Reqb (a b : R) : bool := if Req_dec_T a b then true else false.
Definition Rltb (a b : R) : bool := if Rlt_dec a b then true else false.

Definition fneg (x : fnum) : fnum :=
  match x with
  | Fin r => Fin (- r)
  | PInf => NInf
  | NInf => PInf
  | NaN => NaN
  end.

(** The infinity with the sign of [r] ([r] is not zero). *)
Definition inf_of_sign (r : R) : fnum := if Rltb 0 r then PInf else NInf.

Definition fadd (x y : fnum) : fnum * fpcond :=
  match x, y with
  | NaN, _ | _, NaN => (NaN, NoCond)
  | Fin a, Fin b => (Fin (a + b), NoCond)
  | PInf, NInf | NInf, PInf => (NaN, InvalidCond)
  | PInf, _ | _, PInf => (PInf, NoCond)
  | NInf, _ | _, NInf => (NInf, NoCond)
  end.

Definition fsub (x y : fnum) : fnum * fpcond := fadd x (fneg y).

Definition fmul (x y : fnum) : fnum * fpcond :=
  match x, y with
  | NaN, _ | _, NaN => (NaN, NoCond)
  | Fin a, Fin b => (Fin (a * b), NoCond)
  | Fin a, PInf | PInf, Fin a =>
      if Reqb a 0 then (NaN, InvalidCond) else (inf_of_sign a, NoCond)
  | Fin a, NInf | NInf, Fin a =>
      if Reqb a 0 then (NaN, InvalidCond) else (inf_of_sign (- a), NoCond)
  | PInf, PInf | NInf, NInf => (PInf, NoCond)
  | PInf, NInf | NInf, PInf => (NInf, NoCond)
  end.

(** Division. A finite nonzero number divided by zero is an infinity and
    signals divide-by-zero; the model's zero is unsigned, and the infinity is
    given the sign of the numerator. *)
Definition fdiv (x y : fnum) : fnum * fpcond :=
  match x, y with
  | NaN, _ | _, NaN => (NaN, NoCond)
  | Fin a, Fin b =>
      if Reqb b 0 then
        if Reqb a 0 then (NaN, InvalidCond) else (inf_of_sign a, DivideCond)
      else (Fin (a / b), NoCond)
  | Fin _, PInf | Fin _, NInf => (Fin 0, NoCond)
  | PInf, Fin b => (if Rltb b 0 then NInf else PInf, NoCond)
  | NInf, Fin b => (if Rltb b 0 then PInf else NInf, NoCond)
  | PInf, PInf | PInf, NInf | NInf, PInf | NInf, NInf => (NaN, InvalidCond)
  end.

(** [np.log] *)
Definition flog (x : fnum) : fnum * fpcond :=
  match x with
  | Fin r =>
      if Reqb r 0 then (NInf, DivideCond)
      else if Rltb r 0 then (NaN, InvalidCond)
      else (Fin (ln r), NoCond)
  | PInf => (PInf, NoCond)
  | NInf => (NaN, InvalidCond)
  | NaN => (NaN, NoCond)
  end.

(** [np.exp] *)
Definition fexp (x : fnum) : fnum * fpcond :=
  match x with
  | Fin r => (Fin (exp r), NoCond)
  | PInf => (PInf, NoCond)
  | NInf => (Fin 0, NoCond)
  | NaN => (NaN, NoCond)
  end.

(** [np.sqrt] *)
Definition fsqrt (x : fnum) : fnum * fpcond :=
  match x with
  | Fin r => if Rltb r 0 then (NaN, InvalidCond) else (Fin (sqrt r), NoCond)
  | PInf => (PInf, NoCond)
  | NInf => (NaN, InvalidCond)
  | NaN => (NaN, NoCond)
  end.

(** [np.square(x)] and [x**2] *)
Definition fsquare (x : fnum) : fnum * fpcond := fmul x x.

(** [x**3] *)
Definition fcube (x : fnum) : fnum * fpcond :=
  match x with
  | Fin r => (Fin (r * r * r), NoCond)
  | other => (other, NoCond)
  end.

(** Truth value of a number: everything but zero is true (NaN included). *)
Definition truthy (x : fnum) : bool :=
  match x with
  | Fin r => negb (Reqb r 0)
  | _ => true
  end.

(** [x == c] for a finite constant [c]; NaN and the infinities differ
    from every finite number. *)
Definition feqc (x : fnum) (c : R) : bool :=
  match x with
  | Fin r => Reqb r c
  | _ => false
  end.

(** *** The error-reporting settings of [np.seterr] *)

Inductive errmode : Type :=
| ModeIgnore | ModeWarn | ModeRaise | ModeCall | ModePrint | ModeLog.

(** The handler installed with [np.seterrcall]: none (as at start-up), or an
    object, of which the model records what calling it (mode ['call']) and
    what writing to it (mode ['log']) ends in: a normal return ([None]) or an
    exception. An object that is not callable has [TypeError] as the first
    outcome, one without a [write] method [AttributeError] as the second. A
    handler is assumed to leave the settings alone. *)
Inductive handler : Type :=
| NoHandler
| Handler (on_call on_log : option exn).

(** The four modes of [np.seterr], the handler, and whether Python's warning
    filter turns a [RuntimeWarning] into an exception. *)
#[projections(primitive)] Record fpstate : Type := mkFpstate {
  divide : errmode;
  over : errmode;
  under : errmode;
  invalid : errmode;
  errcall : handler;
  warnings_raise : bool
}.

(** The settings at start-up. *)
Definition default_fpstate : fpstate :=
  mkFpstate ModeWarn ModeWarn ModeIgnore ModeWarn NoHandler false.

Definition set_divide (m : errmode) (s : fpstate) : fpstate :=
  mkFpstate m (over s) (under s) (invalid s) (errcall s) (warnings_raise s).

(** [np.seterr(divide=m)]: installs the mode and returns the old settings. *)
Definition seterr_divide (m : errmode) : M fpstate fpstate :=
  fun s => (Ok s, set_divide m s).

(** [np.seterr] applied to a saved settings dictionary: installs the four
    saved modes; the handler is not part of the dictionary. The call returns
    the settings it replaces; every caller in this module drops them. *)
Definition seterr_all (saved : fpstate) : M fpstate fpstate :=
  fun s =>
    (Ok s,
     mkFpstate (divide saved) (over saved) (under saved) (invalid saved)
       (errcall s) (warnings_raise s)).

(** numpy's [NameError] for a mode that needs the handler when none is
    installed. Its message is not modelled; the name recorded is that of
    the missing handler. *)
Definition no_handler : exn := NameError "errcall".

(** What reporting a condition under mode [m] does to the computation:
    nothing ([None]: it goes on with the value) or an exception.
    ['ignore'] and ['print'] never raise; ['warn'] issues a [RuntimeWarning],
    which raises if the warning filter says so; ['raise'] raises
    [FloatingPointError]; ['call'] and ['log'] use the handler and raise
    [NameError] when there is none. *)
Definition report (m : errmode) (s : fpstate) : option exn :=
  match m with
  | ModeIgnore => None
  | ModeWarn => if warnings_raise s then Some RuntimeWarning else None
  | ModeRaise => Some FloatingPointError
  | ModeCall =>
      match errcall s with
      | NoHandler => Some no_handler
      | Handler on_call _ => on_call
      end
  | ModePrint => None
  | ModeLog =>
      match errcall s with
      | NoHandler => Some no_handler
      | Handler _ on_log => on_log
      end
  end.

(** The report of one condition. *)
Definition cond_report (c : fpcond) (s : fpstate) : option exn :=
  match c with
  | NoCond => None
  | DivideCond => report (divide s) s
  | InvalidCond => report (invalid s) s
  end.

Definition is_divide (c : fpcond) : bool :=
  match c with DivideCond => true | _ => false end.

Definition is_invalid (c : fpcond) : bool :=
  match c with InvalidCond => true | _ => false end.

(** The report at the end of an array operation that signalled the
    conditions [cs]: the flags raised are reported once each, divide-by-zero
    before invalid, and the first report that raises ends the call. *)
Definition report_all (cs : list fpcond) (s : fpstate) : option exn :=
  match (if existsb is_divide cs then report (divide s) s else None) with
  | Some e => Some e
  | None => if existsb is_invalid cs then report (invalid s) s else None
  end.

(** A scalar operation on numpy float64 scalars. *)
Definition scalar_op (r : fnum * fpcond) : M fpstate fnum :=
  fun s =>
    match cond_report (snd r) s with
    | Some e => (Raise e, s)
    | None => (Ok (fst r), s)
    end.

End FP.
Export FP.

(* ===================================================================== *)
(** ** numpy arrays *)
(* ===================================================================== *)

Module Np.

(** An array: its shape and its elements in row-major order. A 0-d array
    has the empty shape and one element. *)
Record ndarray (A : Type) : Type := mkArr {
  shape : list nat;
  data : list A
}.
Arguments mkArr {A} shape data.
Arguments shape {A} _.
Arguments data {A} _.

(** Number of elements a shape holds ([.size]). *)
Definition shape_size (sh : list nat) : nat := fold_right Nat.mul 1%nat sh.

Definition size {A} (a : ndarray A) : nat := shape_size (shape a).

(** The data of an array fills its shape. *)
Definition wf {A} (a : ndarray A) : Prop :=
  List.length (data a) = shape_size (shape a).

Fixpoint shape_eqb (s1 s2 : list nat) : bool :=
  match s1, s2 with
  | [], [] => true
  | n :: t1, m :: t2 => Nat.eqb n m && shape_eqb t1 t2
  | _, _ => false
  end.

(** [np.atleast_1d(a).shape]: a 0-d array is viewed as one of shape (1,);
    every other array is left as it is. *)
Definition atleast_1d_shape (sh : list nat) : list nat :=
  match sh with
  | [] => [1%nat]
  | _ => sh
  end.

(** Shape of the elementwise combination of two operands whose
    [atleast_1d] shapes agree: the operands then have the same shape, or one
    is 0-d and the other has shape (1,), and broadcasting keeps the latter. *)
Definition broadcast_shape (s1 s2 : list nat) : list nat :=
  match s1 with
  | [] => s2
  | _ => s1
  end.

(** An elementwise function (ufunc) applied to an array: all elements are
    computed, then the conditions signalled are checked against the
    error-reporting settings. *)
Definition ufunc1 (f : fnum -> fnum * fpcond) (a : ndarray fnum)
  : M fpstate (ndarray fnum) :=
  fun s =>
    let rs := map f (data a) in
    match report_all (map snd rs) s with
    | Some e => (Raise e, s)
    | None => (Ok (mkArr (shape a) (map fst rs)), s)
    end.

(** Conversion of an array to booleans, as [np.where] does with its
    condition. *)
Definition astype_bool (y : ndarray fnum) : ndarray bool :=
  mkArr (shape y) (map truthy (data y)).

(** [y == c] *)
Definition eq_const (y : ndarray fnum) (c : R) : ndarray bool :=
  mkArr (shape y) (map (fun v => feqc v c) (data y)).

Fixpoint select {A} (c : list bool) (a b : list A) : list A :=
  match c, a, b with
  | ci :: c', ai :: a', bi :: b' => (if ci then ai else bi) :: select c' a' b'
  | _, _, _ => []
  end.

(** [np.where(c, a, b)] for operands that passed the shape assertion. *)
Definition np_where (c : ndarray bool) (a b : ndarray fnum) : ndarray fnum :=
  mkArr (broadcast_shape (shape c) (broadcast_shape (shape a) (shape b)))
        (select (data c) (data a) (data b)).

(** Left-to-right sum with the conditions signalled on the way. *)
Fixpoint sum_from (acc : fnum) (l : list fnum) : fnum * list fpcond :=
  match l with
  | [] => (acc, [])
  | x :: t =>
      let r := fadd acc x in
      let rest := sum_from (fst r) t in
      (fst rest, snd r :: snd rest)
  end.

(** [np.sum(a)] *)
Definition np_sum (a : ndarray fnum) : M fpstate fnum :=
  fun s =>
    let r := sum_from (Fin 0) (data a) in
    match report_all (snd r) s with
    | Some e => (Raise e, s)
    | None => (Ok (fst r), s)
    end.

(** *** Operands

    What a method receives as [link_f] or [y]: a Python number or a numpy
    array. *)
Inductive operand : Type :=
| PyNum (v : fnum)
| NpArr (a : ndarray fnum).

#[warning="-uniform-inheritance"] Coercion NpArr : ndarray >-> operand.

(** The array a numpy function makes of an operand ([np.asarray]): a Python
    number becomes a 0-d array. *)
Definition as_array (x : operand) : ndarray fnum :=
  match x with
  | PyNum v => mkArr [] [v]
  | NpArr a => a
  end.

(** [c - x] for a Python float [c]. Between Python numbers the result is a
    Python number and nothing is signalled; with an array it is numpy's
    elementwise subtraction. *)
Definition py_rsub (c : fnum) (x : operand) : M fpstate operand :=
  match x with
  | PyNum v => ret (PyNum (fst (fsub c v)))
  | NpArr a => bind (ufunc1 (fsub c) a) (fun r => ret (NpArr r))
  end.

(** [c / x] for a Python float [c]. Between Python numbers a zero divisor
    raises [ZeroDivisionError]; with an array it is numpy's elementwise
    division. *)
Definition py_rdiv (c : fnum) (x : operand) : M fpstate operand :=
  match x with
  | PyNum v =>
      if feqc v 0 then raise ZeroDivisionError
      else ret (PyNum (fst (fdiv c v)))
  | NpArr a => bind (ufunc1 (fdiv c) a) (fun r => ret (NpArr r))
  end.

(** [x ** 3]. (Between Python numbers the power raises [OverflowError]
    where it overflows; overflow is outside the model.) *)
Definition py_pow3 (x : operand) : M fpstate operand :=
  match x with
  | PyNum v => ret (PyNum (fst (fcube v)))
  | NpArr a => bind (ufunc1 fcube a) (fun r => ret (NpArr r))
  end.

End Np.
Export Np.

(* ===================================================================== *)
(** ** The standard normal density and distribution function *)
(* ===================================================================== *)

Module Gaussian.
Local Open Scope R_scope.

(** Modelled from the spec: [std_norm_pdf] of [util.univariate_Gaussian],
    the standard normal probability density. *)
Definition std_norm_pdf_R (x : R) : R :=
  / sqrt (2 * PI) * exp (- (x * x) / 2).

(** The density is continuous, hence integrable between any two bounds. *)
Definition std_norm_pdf_integrable (a b : R)
  : Riemann_integrable std_norm_pdf_R a b.
Proof.
  assert (Hc : continuity std_norm_pdf_R) by (unfold std_norm_pdf_R; reg).
  destruct (Rle_dec a b) as [Hab | Hab].
  - apply continuity_implies_RiemannInt; [exact Hab |].
    intros x _. apply Hc.
  - apply RiemannInt_P1.
    apply continuity_implies_RiemannInt;
      [apply Rlt_le, Rnot_le_lt; exact Hab |].
    intros x _. apply Hc.
Defined.

(** Modelled from the spec: [std_norm_cdf] of [util.univariate_Gaussian],
    the standard normal cumulative distribution function: one half (the
    mass below zero) plus the integral of the density from 0 to [x]. *)
Definition std_norm_cdf_R (x : R) : R :=
  1 / 2 + RiemannInt (std_norm_pdf_integrable 0 x).

(** The two functions on extended values: limits at the infinities, and
    not-a-number carried through. *)
Definition std_norm_pdf (x : fnum) : fnum :=
  match x with
  | Fin r => Fin (std_norm_pdf_R r)
  | PInf | NInf => Fin 0
  | NaN => NaN
  end.

Definition std_norm_cdf (x : fnum) : fnum :=
  match x with
  | Fin r => Fin (std_norm_cdf_R r)
  | PInf => Fin 1
  | NInf => Fin 0
  | NaN => NaN
  end.

End Gaussian.
Export Gaussian.

(* ===================================================================== *)
(** ** Link functions *)
(* ===================================================================== *)

Module link_functions.

(** What the methods of [Bernoulli] can observe of a link-function object:
    whether it is an instance of [Probit], of [Heaviside] or of neither,
    and, for the last, the value of its attribute [__name__] if the object
    has one. (The module [link_functions] itself is outside this file.) *)
Inductive link_function : Type :=
| Probit
| Heaviside
| OtherLink (name_attr : option string).

End link_functions.
Export link_functions.

(* ===================================================================== *)
(** ** The module namespace *)
(* ===================================================================== *)

(** Names bound at the top level of [bernoulli.py]: the four imports and the
    class. *)
Definition module_globals : list string :=
  ["np"; "std_norm_pdf"; "std_norm_cdf"; "link_functions"; "Likelihood";
   "Bernoulli"]%string.

(** Evaluation of a global name in a method body. A name that is not bound in
    the module (and is not a builtin) raises [NameError]. *)
Definition load_global {S} (name : string) : M S unit :=
  if existsb (String.eqb name) module_globals then ret tt
  else raise (NameError name).

(* ===================================================================== *)
(** ** The object store *)
(* ===================================================================== *)

Module Store.

(** The element types told apart: floating point, signed integers (of any
    width), and booleans, whose elements are 0 ([False]) and 1 ([True]).
    Other dtypes are outside the model; among them the unsigned integers,
    for which storing -1 wraps around or raises [OverflowError] depending on
    the numpy release. *)
Inductive dtype : Type :=
| Float
| SignedInt
| Boolean.

(** An array object: its dtype and its contents. *)
Record object : Type := mkObj {
  dtype_of : dtype;
  array_of :> ndarray fnum
}.

(** The element stored when the Python integer -1 is assigned into an array
    of the given dtype: -1 itself where it is representable, and [True] for
    booleans (every nonzero number is true). *)
Definition stored_minus_one (d : dtype) : fnum :=
  match d with
  | Float | SignedInt => Fin (-1)
  | Boolean => Fin 1
  end.

(** Array objects live in a store and are passed by reference, so that
    in-place assignment and copying can be told apart. *)
Definition ref : Type := nat.
Definition heap : Type := list object.

(** A new object, placed after all existing ones. *)
Definition alloc (a : object) : M heap ref :=
  fun h => (Ok (List.length h), h ++ [a]).

(** The object behind a reference. Python code only holds references to
    live objects; a reference outside the store is reported as an unbound
    name. *)
Definition load (r : ref) : M heap object :=
  fun h =>
    match nth_error h r with
    | Some a => (Ok a, h)
    | None => (Raise (NameError "Y"%string), h)
    end.

Fixpoint update {A} (l : list A) (i : nat) (x : A) : list A :=
  match l, i with
  | [], _ => []
  | _ :: t, O => x :: t
  | y :: t, S j => y :: update t j x
  end.

(** In-place replacement of the contents of an object. *)
Definition store (r : ref) (a : object) : M heap unit :=
  fun h => (Ok tt, update h r a).

Definition lift {A} (r : result A) : M heap A := fun h => (r, h).

(** *** Indexing with a one-dimensional boolean mask

    [a[mask]] and [a[mask] = v] apply the mask along the first axis: the
    mask must be as long as that axis, and each of its entries governs one
    row of [rowsize] elements. A 0-d array has no axis to index.

    (Older numpy releases accept a longer mask as long as none of its true
    entries lies past the axis. For an array with more than one column whose
    elements are all 0 or 1, one of the two masks of [_preprocess_values] has
    such an entry, so the outcome there is [IndexError] as well.) *)

Definition count_true (mask : list bool) : nat :=
  List.length (filter (fun b => b) mask).

Fixpoint getrows (rowsize : nat) (mask : list bool) (d : list fnum)
  : list fnum :=
  match mask with
  | [] => []
  | b :: m =>
      (if b then firstn rowsize d else [])
        ++ getrows rowsize m (skipn rowsize d)
  end.

Fixpoint setrows (rowsize : nat) (mask : list bool) (d : list fnum)
    (v : fnum) : list fnum :=
  match mask with
  | [] => []
  | b :: m =>
      (if b then map (fun _ => v) (firstn rowsize d) else firstn rowsize d)
        ++ setrows rowsize m (skipn rowsize d) v
  end.

(** [a[mask]] *)
Definition getitem_mask (a : ndarray fnum) (mask : list bool)
  : result (ndarray fnum) :=
  match shape a with
  | [] => Raise IndexError
  | n :: rest =>
      if Nat.eqb (List.length mask) n
      then Ok (mkArr (count_true mask :: rest)
                     (getrows (shape_size rest) mask (data a)))
      else Raise IndexError
  end.

(** [a[mask] = -1], giving the new contents of [a]: the dtype is kept and
    the value is stored as that dtype holds it. *)
Definition setitem_mask_minus_one (a : object) (mask : list bool)
  : result object :=
  match shape a with
  | [] => Raise IndexError
  | n :: rest =>
      if Nat.eqb (List.length mask) n
      then Ok (mkObj (dtype_of a)
                 (mkArr (shape a)
                    (setrows (shape_size rest) mask (data a)
                       (stored_minus_one (dtype_of a)))))
      else Raise IndexError
  end.

(** [a.flatten() == c]: a one-dimensional boolean array with one entry per
    element of [a]. *)
Definition flatten_eq (a : ndarray fnum) (c : R) : list bool :=
  map (fun v => feqc v c) (data a).

End Store.
Export Store.

(* ===================================================================== *)
(** ** class Bernoulli *)
(* ===================================================================== *)

Module Bernoulli.
Local Open Scope py_scope.
Local Open Scope string_scope.

(** The instance: the link function it was built with and the flag set by
    the constructor. *)
Record t : Type := mkBernoulli {
  gp_link : link_function;
  log_concave : bool
}.

(** [__init__(self, gp_link=None)]. The flag [log_concave] is set for the two
    link classes tested; otherwise it keeps the value given by the parent
    class [Likelihood], which is outside this file (modelled from the spec:
    its default is false). *)
Definition __init__ (link : option link_function) : t :=
  let l := match link with None => Probit | Some l => l end in
  mkBernoulli l
    (match l with Probit | Heaviside => true | OtherLink _ => false end).

(** [_preprocess_values(self, Y)]; [Y] is a reference to the array, the
    result a reference to the prepared copy. *)
Definition _preprocess_values (self : t) (Y : ref) : M heap ref :=
  y <- load Y ;;
  (* Y_prep = Y.copy(): a new object of the same dtype and contents *)
  Y_prep <- alloc y ;;
  (* Y1 = Y[Y.flatten()==1].size *)
  ones <- lift (getitem_mask y (flatten_eq y 1)) ;;
  let Y1 := size ones in
  (* Y2 = Y[Y.flatten()==0].size *)
  zeros <- lift (getitem_mask y (flatten_eq y 0)) ;;
  let Y2 := size zeros in
  assert_ (Nat.eqb (Y1 + Y2) (size y))
    "Bernoulli likelihood is meant to be used only with outputs in {0, 1}." ;;;
  (* Y_prep[Y.flatten() == 0] = -1 *)
  prep <- load Y_prep ;;
  prep' <- lift (setitem_mask_minus_one prep (flatten_eq y 0)) ;;
  store Y_prep prep' ;;;
  ret Y_prep.

(** A binary operation on numpy scalars. *)
Definition op2 (f : fnum -> fnum -> fnum * fpcond) (x y : fnum)
  : M fpstate fnum := scalar_op (f x y).

Definition op1 (f : fnum -> fnum * fpcond) (x : fnum) : M fpstate fnum :=
  scalar_op (f x).

(** [moments_match_ep(self, data_i, tau_i, v_i)]; the three numbers are
    numpy scalars. The result is [(Z_hat, mu_hat, sigma2_hat)]. *)
Definition moments_match_ep (self : t) (data_i tau_i v_i : fnum)
  : M fpstate (fnum * fnum * fnum) :=
  sign <- (if feqc data_i 1 then ret (Fin 1)
           else if feqc data_i 0 then ret (Fin (-1))
           else raise
                  (ValueError "bad value for Bernouilli observation (0, 1)")) ;;
  match gp_link self with
  | Probit =>
      (* z = sign*v_i/np.sqrt(tau_i**2 + tau_i) *)
      sv <- op2 fmul sign v_i ;;
      t2 <- op1 fsquare tau_i ;;
      tt <- op2 fadd t2 tau_i ;;
      sq <- op1 fsqrt tt ;;
      z <- op2 fdiv sv sq ;;
      let Z_hat := std_norm_cdf z in
      let phi := std_norm_pdf z in
      (* mu_hat = v_i/tau_i + sign*phi/(Z_hat*np.sqrt(tau_i**2 + tau_i)) *)
      m1 <- op2 fdiv v_i tau_i ;;
      m2 <- op2 fmul sign phi ;;
      m3 <- op1 fsquare tau_i ;;
      m4 <- op2 fadd m3 tau_i ;;
      m5 <- op1 fsqrt m4 ;;
      m6 <- op2 fmul Z_hat m5 ;;
      m7 <- op2 fdiv m2 m6 ;;
      mu_hat <- op2 fadd m1 m7 ;;
      (* sigma2_hat = 1./tau_i
                      - (phi/((tau_i**2+tau_i)*Z_hat))*(z+phi/Z_hat) *)
      s1 <- op2 fdiv (Fin 1) tau_i ;;
      s2 <- op1 fsquare tau_i ;;
      s3 <- op2 fadd s2 tau_i ;;
      s4 <- op2 fmul s3 Z_hat ;;
      s5 <- op2 fdiv phi s4 ;;
      s6 <- op2 fdiv phi Z_hat ;;
      s7 <- op2 fadd z s6 ;;
      s8 <- op2 fmul s5 s7 ;;
      sigma2_hat <- op2 fsub s1 s8 ;;
      ret (Z_hat, mu_hat, sigma2_hat)
  | Heaviside =>
      (* a = sign*v_i/np.sqrt(tau_i) *)
      sv <- op2 fmul sign v_i ;;
      sq <- op1 fsqrt tau_i ;;
      a <- op2 fdiv sv sq ;;
      let Z_hat := std_norm_cdf a in
      let N := std_norm_pdf a in
      (* mu_hat = v_i/tau_i + sign*N/Z_hat/np.sqrt(tau_i) *)
      m1 <- op2 fdiv v_i tau_i ;;
      m2 <- op2 fmul sign N ;;
      m3 <- op2 fdiv m2 Z_hat ;;
      m4 <- op1 fsqrt tau_i ;;
      m5 <- op2 fdiv m3 m4 ;;
      mu_hat <- op2 fadd m1 m5 ;;
      (* sigma2_hat = (1. - a*N/Z_hat - np.square(N/Z_hat))/tau_i *)
      s1 <- op2 fmul a N ;;
      s2 <- op2 fdiv s1 Z_hat ;;
      s3 <- op2 fsub (Fin 1) s2 ;;
      s4 <- op2 fdiv N Z_hat ;;
      s5 <- op1 fsquare s4 ;;
      s6 <- op2 fsub s3 s5 ;;
      sigma2_hat <- op2 fdiv s6 tau_i ;;
      ret (Z_hat, mu_hat, sigma2_hat)
  | OtherLink name_attr =>
      (* raise ValueError("...{}".format(self.gp_link.__name__)): the
         attribute is read first, to build the message *)
      match name_attr with
      | Some name =>
          raise (ValueError
                   ("Exact moment matching not available for link " ++ name))
      | None => raise (AttributeError "__name__")
      end
  end.

(** [predictive_mean(self, mu, variance)]. In the two supported branches the
    callee expression [stats.norm.cdf] is evaluated before its argument, and
    it starts with the global name [stats]. *)
Definition predictive_mean (self : t) (mu variance : fnum)
  : M fpstate fnum :=
  match gp_link self with
  | Probit =>
      load_global "stats" ;;;
      d1 <- op2 fadd (Fin 1) variance ;;
      d2 <- op1 fsqrt d1 ;;
      q <- op2 fdiv mu d2 ;;
      ret (std_norm_cdf q)
  | Heaviside =>
      load_global "stats" ;;;
      d <- op1 fsqrt variance ;;
      q <- op2 fdiv mu d ;;
      ret (std_norm_cdf q)
  | OtherLink _ => raise NotImplementedError
  end.

(** [predictive_variance(self, mu, variance, pred_mean)] *)
Definition predictive_variance (self : t) (mu variance pred_mean : fnum)
  : M fpstate fnum :=
  match gp_link self with
  | Heaviside => ret (Fin 0)
  | _ => ret NaN
  end.

(** The assertion that opens the five likelihood methods:
    [assert np.atleast_1d(link_f).shape == np.atleast_1d(y).shape] *)
Definition assert_same_shape (link_f y : operand) : M fpstate unit :=
  assert_ (shape_eqb (atleast_1d_shape (shape (as_array link_f)))
                     (atleast_1d_shape (shape (as_array y)))) EmptyString.

(** In the five methods below, a numpy function applied to an operand
    ([np.where], [np.log], [np.square]) first makes an array of it
    ([as_array]); the Python operators [-], [/] and [**] act on the operand
    as it is. *)

(** [pdf_link(self, link_f, y)] *)
Definition pdf_link (self : t) (link_f y : operand) : M fpstate fnum :=
  assert_same_shape link_f y ;;;
  (* objective = np.where(y, link_f, 1.-link_f) *)
  one_minus <- py_rsub (Fin 1) link_f ;;
  let objective :=
    np_where (astype_bool (as_array y))
      (as_array link_f) (as_array one_minus) in
  (* return np.exp(np.sum(np.log(objective))) *)
  logs <- ufunc1 flog objective ;;
  total <- np_sum logs ;;
  op1 fexp total.

(** [logpdf_link(self, link_f, y)] *)
Definition logpdf_link (self : t) (link_f y : operand) : M fpstate fnum :=
  assert_same_shape link_f y ;;;
  state <- seterr_divide ModeIgnore ;;
  (* objective = np.where(y==1, np.log(link_f), np.log(1-link_f)) *)
  log_f <- ufunc1 flog (as_array link_f) ;;
  one_minus <- py_rsub (Fin 1) link_f ;;
  log_1mf <- ufunc1 flog (as_array one_minus) ;;
  let objective := np_where (eq_const (as_array y) 1) log_f log_1mf in
  seterr_all state ;;;
  np_sum objective.

(** [dlogpdf_dlink(self, link_f, y)] *)
Definition dlogpdf_dlink (self : t) (link_f y : operand)
  : M fpstate (ndarray fnum) :=
  assert_same_shape link_f y ;;;
  state <- seterr_divide ModeIgnore ;;
  (* grad = np.where(y, 1./link_f, -1./(1-link_f)) *)
  inv_f <- py_rdiv (Fin 1) link_f ;;
  one_minus <- py_rsub (Fin 1) link_f ;;
  inv_1mf <- py_rdiv (Fin (-1)) one_minus ;;
  let grad :=
    np_where (astype_bool (as_array y))
      (as_array inv_f) (as_array inv_1mf) in
  seterr_all state ;;;
  ret grad.

(** [d2logpdf_dlink2(self, link_f, y)] *)
Definition d2logpdf_dlink2 (self : t) (link_f y : operand)
  : M fpstate (ndarray fnum) :=
  assert_same_shape link_f y ;;;
  state <- seterr_divide ModeIgnore ;;
  (* np.where(y, -1./np.square(link_f), -1./np.square(1.-link_f)) *)
  sq_f <- ufunc1 fsquare (as_array link_f) ;;
  a <- py_rdiv (Fin (-1)) sq_f ;;
  one_minus <- py_rsub (Fin 1) link_f ;;
  sq_1mf <- ufunc1 fsquare (as_array one_minus) ;;
  b <- py_rdiv (Fin (-1)) sq_1mf ;;
  let d2 := np_where (astype_bool (as_array y)) (as_array a) (as_array b) in
  seterr_all state ;;;
  ret d2.

(** [d3logpdf_dlink3(self, link_f, y)] *)
Definition d3logpdf_dlink3 (self : t) (link_f y : operand)
  : M fpstate (ndarray fnum) :=
  assert_same_shape link_f y ;;;
  state <- seterr_divide ModeIgnore ;;
  (* np.where(y, 2./(link_f**3), -2./((1.-link_f)**3)) *)
  cube_f <- py_pow3 link_f ;;
  a <- py_rdiv (Fin 2) cube_f ;;
  one_minus <- py_rsub (Fin 1) link_f ;;
  cube_1mf <- py_pow3 one_minus ;;
  b <- py_rdiv (Fin (-2)) cube_1mf ;;
  let d3 := np_where (astype_bool (as_array y)) (as_array a) (as_array b) in
  seterr_all state ;;;
  ret d3.

End Bernoulli.

Import Bernoulli.

(* ===================================================================== *)
(** ** Vocabulary of the statements *)
(* ===================================================================== *)

Section Vocabulary.
Local Open Scope R_scope.

(** The array of shape [sh] holding the finite values [rs]. *)
Definition finite_array (sh : list nat) (rs : list R) : ndarray fnum :=
  mkArr sh (map Fin rs).

(** Sum of a list of reals. *)
Definition sumR (rs : list R) : R := fold_right Rplus 0 rs.

(** Elements strictly between 0 and 1. *)
Definition unit_open (ls : list R) : Prop := Forall (fun l => 0 < l < 1) ls.

(** A label is exactly 0 or exactly 1. *)
Definition is_label (v : fnum) : Prop := v = Fin 0 \/ v = Fin 1.

(** The probability selected by [pdf_link] for each element: [link_f] where
    the label is true as a number, [1 - link_f] elsewhere. *)
Definition pdf_terms (ys : list fnum) (ls : list R) : list R :=
  select (map truthy ys) ls (map (fun l => 1 - l) ls).

(** The log-probability selected by [logpdf_link] for each element:
    [log link_f] where the label equals 1, [log (1 - link_f)] elsewhere. *)
Definition logpdf_terms (ys : list fnum) (ls : list R) : list R :=
  select (map (fun v => feqc v 1) ys)
         (map ln ls) (map ln (map (fun l => 1 - l) ls)).




(** Settings in which only the divide-by-zero report raises. *)
Definition divide_raises : fpstate :=
  mkFpstate ModeRaise ModeWarn ModeIgnore ModeWarn NoHandler false.

(** Settings in which the divide-by-zero report calls the handler, and no
    handler is installed. *)
Definition divide_calls : fpstate :=
  mkFpstate ModeCall ModeWarn ModeIgnore ModeWarn NoHandler false.

(** A 0-d link value and a one-element vector of labels. *)
Definition scalar_half : ndarray fnum := finite_array [] [1 / 2].
Definition vector_one : ndarray fnum := finite_array [1%nat] [1].

(** What [_preprocess_values] does to one element of an array that can hold
    -1: 0 becomes -1, everything else is kept. *)
Definition relabel (v : fnum) : fnum := if feqc v 0 then Fin (-1) else v.

(** The same for an array of dtype [d], which stores -1 in its own way. *)
Definition relabel_as (d : dtype) (v : fnum) : fnum :=
  if feqc v 0 then stored_minus_one d else v.

(** An array object of floating-point dtype holding the finite values
    [rs]. *)
Definition float_array (sh : list nat) (rs : list R) : object :=
  mkObj Float (finite_array sh rs).

Definition labels_message : string :=
  "Bernoulli likelihood is meant to be used only with outputs in {0, 1}."%string.

(** Elements between 0 and 1, the bounds included. *)
Definition unit_closed (ls : list R) : Prop :=
  Forall (fun l => 0 <= l <= 1) ls.

(** Product of a list of reals. *)
Definition prodR (rs : list R) : R := fold_right Rmult 1 rs.

(** A one-dimensional array holding [vs]. *)
Definition vector (vs : list fnum) : ndarray fnum :=
  mkArr [List.length vs] vs.

Definition is_fin (v : fnum) : Prop := exists r, v = Fin r.

(** Reading a result as a real: the finite value a call returned, and 0 if
    it raised or returned an infinity or not-a-number. *)
Definition finite_or_zero (v : fnum) : R :=
  match v with Fin r => r | _ => 0 end.

Definition returned_value (c : M fpstate fnum) (s : fpstate) : R :=
  match fst (c s) with
  | Ok v => finite_or_zero v
  | Raise _ => 0
  end.

(** Element [i] of the array a call returned, read in the same way. *)
Definition returned_element (c : M fpstate (ndarray fnum)) (s : fpstate)
    (i : nat) : R :=
  match fst (c s) with
  | Ok a => finite_or_zero (nth i (data a) NaN)
  | Raise _ => 0
  end.

(** The probabilities [logpdf_link] takes the logarithm of: [link_f] where
    the label equals 1, [1 - link_f] elsewhere. *)
Definition logpdf_probs (ys : list fnum) (ls : list R) : list R :=
  select (map (fun v => feqc v 1) ys) ls (map (fun l => 1 - l) ls).

(** Logarithm of a probability: minus infinity at exactly 0. *)
Definition log_or_ninf (t : R) : fnum :=
  if Reqb t 0 then NInf else Fin (ln t).

(** Sum of the logarithms of a list of probabilities: minus infinity as
    soon as one of them is exactly 0. *)
Definition total_log (ts : list R) : fnum :=
  if existsb (fun t => Reqb t 0) ts then NInf else Fin (sumR (map ln ts)).

(** One step of that sum. *)
Definition add_log (acc : fnum) (t : R) : fnum :=
  match acc with
  | Fin a => if Reqb t 0 then NInf else Fin (a + ln t)
  | other => other
  end.

(** The quotient [c / x] of a nonzero constant by a finite number: the
    infinity with the sign of [c] when [x] is exactly 0. *)
Definition quotient_or_inf (c x : R) : fnum :=
  if Reqb x 0 then inf_of_sign c else Fin (c / x).

(** The classification of one label by each of the two likelihood methods,
    stated on the label itself. [pdf_link] takes [1 - link_f] for the label 0
    and [link_f] for every other label; [logpdf_link] takes [log link_f] for
    the label 1 and [log (1 - link_f)] for every other label. *)
Definition pdf_choice (v : fnum) (l t : R) : Prop :=
  (v = Fin 0 /\ t = 1 - l) \/ (v <> Fin 0 /\ t = l).

Definition logpdf_choice (v : fnum) (l t : R) : Prop :=
  (v = Fin 1 /\ t = ln l) \/ (v <> Fin 1 /\ t = ln (1 - l)).

(** An infinity of either sign. *)
Definition is_inf (v : fnum) : Prop := v = PInf \/ v = NInf.

(** [v] is what numpy gives for [c / x] ([c] a nonzero constant, [x]
    finite), as far as the model can tell: the quotient when [x] is not
    zero, an infinity when it is (which of the two depends on the sign of the
    zero). *)
Definition quotient_of (c x : R) (v : fnum) : Prop :=
  (x <> 0 /\ v = Fin (c / x)) \/ (x = 0 /\ is_inf v).

(** The shape [np.where] gives to what the derivative methods return, for
    operands that passed the shape assertion: that of [y], unless [y] is
    0-d. *)
Definition result_shape (link_f y : ndarray fnum) : list nat :=
  match shape y with
  | [] => shape link_f
  | _ => shape y
  end.

End Vocabulary.

(* ===================================================================== *)
(** ** Basic facts about the numeric model *)
(* ===================================================================== *)

Section NumericFacts.
Local Open Scope R_scope.

Lemma Reqb_true_iff (a b : R) : Reqb a b = true <-> a = b.
Proof.
  unfold Reqb. destruct (Req_dec_T a b); split; intros; congruence.
Qed.

Lemma Reqb_false_iff (a b : R) : Reqb a b = false <-> a <> b.
Proof.
  unfold Reqb. destruct (Req_dec_T a b); split; intros; congruence.
Qed.

Lemma Reqb_refl (a : R) : Reqb a a = true.
Proof. apply Reqb_true_iff. reflexivity. Qed.

Lemma Reqb_neq (a b : R) : a <> b -> Reqb a b = false.
Proof. apply Reqb_false_iff. Qed.

Lemma Rltb_true (a b : R) : a < b -> Rltb a b = true.
Proof. intros H. unfold Rltb. destruct (Rlt_dec a b); [reflexivity | contradiction]. Qed.

Lemma Rltb_false (a b : R) : b <= a -> Rltb a b = false.
Proof. intros H. unfold Rltb. destruct (Rlt_dec a b); [lra | reflexivity]. Qed.

Lemma fdiv_fin (a b : R) :
  b <> 0 -> fdiv (Fin a) (Fin b) = (Fin (a / b), NoCond).
Proof. intros H. simpl. rewrite (Reqb_neq _ _ H). reflexivity. Qed.

Lemma fsqrt_fin (r : R) :
  0 <= r -> fsqrt (Fin r) = (Fin (sqrt r), NoCond).
Proof. intros H. simpl. rewrite (Rltb_false _ _ H). reflexivity. Qed.

Lemma flog_fin (r : R) :
  0 < r -> flog (Fin r) = (Fin (ln r), NoCond).
Proof.
  intros H. simpl. rewrite Reqb_neq by lra. rewrite Rltb_false by lra.
  reflexivity.
Qed.

Lemma feqc_true (v : fnum) (c : R) : feqc v c = true <-> v = Fin c.
Proof.
  destruct v; simpl; try (split; discriminate).
  rewrite Reqb_true_iff. split; [intros -> | intros H; injection H]; auto.
Qed.

Lemma feqc_false (v : fnum) (c : R) : feqc v c = false <-> v <> Fin c.
Proof.
  rewrite <- feqc_true. destruct (feqc v c); split; congruence.
Qed.

Lemma truthy_false (v : fnum) : truthy v = false <-> v = Fin 0.
Proof.
  destruct v; simpl; try (split; discriminate).
  rewrite negb_false_iff, Reqb_true_iff.
  split; [intros -> | intros H; injection H]; auto.
Qed.

Lemma truthy_true (v : fnum) : truthy v = true <-> v <> Fin 0.
Proof.
  rewrite <- truthy_false. destruct (truthy v); split; congruence.
Qed.

Lemma scalar_op_nocond (v : fnum) (s : fpstate) :
  scalar_op (v, NoCond) s = (Ok v, s).
Proof. reflexivity. Qed.

(** Nothing signalled, nothing reported. *)
Lemma report_all_quiet (cs : list fpcond) (s : fpstate) :
  Forall (fun c => c = NoCond) cs -> report_all cs s = None.
Proof.
  intros H. unfold report_all.
  assert (E : existsb is_divide cs = false /\ existsb is_invalid cs = false).
  { induction H as [|c t -> _ IH]; [split; reflexivity | exact IH]. }
  destruct E as [-> ->]. reflexivity.
Qed.

Lemma report_all_nocond {A} (l : list A) (s : fpstate) :
  report_all (map (fun _ => NoCond) l) s = None.
Proof.
  apply report_all_quiet, Forall_forall. intros c Hc.
  apply in_map_iff in Hc. destruct Hc as [x [<- _]]. reflexivity.
Qed.

(** While the divide report is suppressed, only an invalid operation can be
    reported. *)
Lemma report_all_set_divide_ignore (cs : list fpcond) (s : fpstate) :
  existsb is_invalid cs = false ->
  report_all cs (set_divide ModeIgnore s) = None.
Proof.
  intros H. unfold report_all. rewrite H.
  destruct (existsb is_divide cs); reflexivity.
Qed.


End NumericFacts.

(* ===================================================================== *)
(** ** predictive_variance and predictive_mean *)
(* ===================================================================== *)

Section Predictive.
Local Open Scope string_scope.

(** C7. [predictive_variance] returns exactly 0 under the Heaviside link and
    the not-a-number value under every other link (Probit included); it never
    raises, leaves the settings alone, and its result does not depend on
    [mu], [variance] or [pred_mean]. *)
Theorem predictive_variance_by_link :
  (forall lc mu variance pred_mean s,
      predictive_variance (mkBernoulli Heaviside lc) mu variance pred_mean s
      = (Ok (Fin 0), s)) /\
  (forall lc mu variance pred_mean s,
      predictive_variance (mkBernoulli Probit lc) mu variance pred_mean s
      = (Ok NaN, s)) /\
  (forall name lc mu variance pred_mean s,
      predictive_variance (mkBernoulli (OtherLink name) lc)
        mu variance pred_mean s
      = (Ok NaN, s)) /\
  (forall self mu variance pred_mean mu' variance' pred_mean' s,
      predictive_variance self mu variance pred_mean s
      = predictive_variance self mu' variance' pred_mean' s).
Proof.
  repeat split; intros; reflexivity.
Qed.

(** The name [stats] is not bound in the module. *)
Lemma stats_unbound (S : Type) (s : S) :
  load_global "stats" s = (Raise (NameError "stats"), s).
Proof. reflexivity. Qed.

(** C1, as the code behaves. Under the Probit link and under the Heaviside
    link, [predictive_mean] raises [NameError] for the unbound name [stats],
    whatever [mu] and [variance] are: no value is returned. Under any other
    link it raises [NotImplementedError]. *)
Theorem predictive_mean_raises :
  (forall lc mu variance s,
      predictive_mean (mkBernoulli Probit lc) mu variance s
      = (Raise (NameError "stats"), s)) /\
  (forall lc mu variance s,
      predictive_mean (mkBernoulli Heaviside lc) mu variance s
      = (Raise (NameError "stats"), s)) /\
  (forall name lc mu variance s,
      predictive_mean (mkBernoulli (OtherLink name) lc) mu variance s
      = (Raise NotImplementedError, s)).
Proof.
  repeat split; intros; reflexivity.
Qed.

End Predictive.

(* ===================================================================== *)
(** ** moments_match_ep *)
(* ===================================================================== *)

Section MomentMatching.
Local Open Scope R_scope.
Local Open Scope string_scope.

Lemma bind_scalar_nocond {B} (v : fnum) (k : fnum -> M fpstate B) s :
  bind (scalar_op (v, NoCond)) k s = k v s.
Proof. reflexivity. Qed.

Lemma bind_ret {S A B} (a : A) (k : A -> M S B) s :
  bind (ret a) k s = k a s.
Proof. reflexivity. Qed.

Lemma bind_raise {S A B} (e : exn) (k : A -> M S B) s :
  bind (raise e) k s = (Raise e, s).
Proof. reflexivity. Qed.

(** A label that is neither 0 nor 1 is rejected before the link function
    is looked at. *)
Lemma moments_match_ep_bad_label self data_i tau_i v_i s :
  feqc data_i 1 = false -> feqc data_i 0 = false ->
  moments_match_ep self data_i tau_i v_i s
  = (Raise (ValueError "bad value for Bernouilli observation (0, 1)"), s).
Proof.
  intros H1 H0. unfold moments_match_ep. rewrite H1, H0.
  apply bind_raise.
Qed.

(** With a valid label and a link that is neither Probit nor Heaviside, no
    result is ever returned. *)
Lemma moments_match_ep_other_link_fails name lc data_i tau_i v_i s :
  is_ok (fst (moments_match_ep (mkBernoulli (OtherLink name) lc)
                data_i tau_i v_i s)) = false.
Proof.
  unfold moments_match_ep.
  destruct (feqc data_i 1); [| destruct (feqc data_i 0)];
    destruct name; reflexivity.
Qed.

(** When the link object does carry a [__name__], the error is the
    [ValueError] that names it. *)
Lemma moments_match_ep_other_link_named name lc tau_i v_i s :
  moments_match_ep (mkBernoulli (OtherLink (Some name)) lc)
    (Fin 1) tau_i v_i s
  = (Raise (ValueError
              ("Exact moment matching not available for link " ++ name)), s).
Proof.
  unfold moments_match_ep, feqc. rewrite Reqb_refl. reflexivity.
Qed.

(** C4, as the code behaves. With a valid label (1 or 0) and a link object
    that is neither Probit nor Heaviside and has no attribute [__name__],
    [moments_match_ep] raises [AttributeError] while it builds the message of
    the intended [ValueError]. *)
Theorem moments_match_ep_other_link_attribute_error :
  forall lc tau_i v_i s,
    moments_match_ep (mkBernoulli (OtherLink None) lc) (Fin 1) tau_i v_i s
    = (Raise (AttributeError "__name__"), s) /\
    moments_match_ep (mkBernoulli (OtherLink None) lc) (Fin 0) tau_i v_i s
    = (Raise (AttributeError "__name__"), s).
Proof.
  intros lc tau_i v_i s. unfold moments_match_ep, feqc.
  rewrite !Reqb_refl. rewrite (Reqb_neq 0 1) by lra.
  split; reflexivity.
Qed.

(** *** The Probit branch at label 1, [tau_i = 1], [v_i = 0] *)

Lemma std_norm_cdf_R_0 : std_norm_cdf_R 0 = 1 / 2.
Proof.
  unfold std_norm_cdf_R. rewrite RiemannInt_P9. lra.
Qed.

Lemma std_norm_pdf_R_0 : std_norm_pdf_R 0 = / sqrt (2 * PI).
Proof.
  unfold std_norm_pdf_R.
  replace (- (0 * 0) / 2) with 0 by lra. rewrite exp_0. lra.
Qed.

Lemma sqrt_2PI_pos : 0 < sqrt (2 * PI).
Proof. apply sqrt_lt_R0. pose proof PI_RGT_0. lra. Qed.

Lemma sqrt2_sqr : sqrt 2 * sqrt 2 = 2.
Proof. apply sqrt_sqrt. lra. Qed.

Lemma sqrtPI_sqr : sqrt PI * sqrt PI = PI.
Proof. apply sqrt_sqrt. pose proof PI_RGT_0. lra. Qed.

Lemma PI_gt_1 : 1 < PI.
Proof. pose proof PI2_1. lra. Qed.

Lemma probit_mu_hat_value :
  0 / 1 + 1 * / sqrt (2 * PI) / (1 / 2 * sqrt (1 * 1 + 1)) = / sqrt PI.
Proof.
  pose proof PI_RGT_0 as Hpi.
  replace (1 * 1 + 1) with 2 by lra.
  rewrite sqrt_mult by lra.
  assert (Ha : 0 < sqrt 2) by (apply sqrt_lt_R0; lra).
  assert (Hb : 0 < sqrt PI) by (apply sqrt_lt_R0; lra).
  replace (0 / 1 + 1 * / (sqrt 2 * sqrt PI) / (1 / 2 * sqrt 2))
    with (2 / ((sqrt 2 * sqrt 2) * sqrt PI)) by (field; split; lra).
  rewrite sqrt2_sqr. field. lra.
Qed.

Lemma probit_sigma2_hat_value :
  1 / 1 + - (/ sqrt (2 * PI) / ((1 * 1 + 1) * (1 / 2))
             * (0 + / sqrt (2 * PI) / (1 / 2)))
  = 1 - / PI.
Proof.
  pose proof PI_RGT_0 as Hpi.
  rewrite sqrt_mult by lra.
  assert (Ha : 0 < sqrt 2) by (apply sqrt_lt_R0; lra).
  assert (Hb : 0 < sqrt PI) by (apply sqrt_lt_R0; lra).
  replace (1 / 1 + - (/ (sqrt 2 * sqrt PI) / ((1 * 1 + 1) * (1 / 2))
                      * (0 + / (sqrt 2 * sqrt PI) / (1 / 2))))
    with (1 - 2 / ((sqrt 2 * sqrt 2) * (sqrt PI * sqrt PI)))
    by (field; split; lra).
  rewrite sqrt2_sqr, sqrtPI_sqr. field. lra.
Qed.

Ltac run_scalar :=
  repeat (cbn [fmul fadd fsub fneg fst snd];
          first [ rewrite bind_scalar_nocond
                | rewrite bind_ret
                | rewrite fsqrt_fin by lra
                | rewrite fdiv_fin by lra ];
          cbv beta).

(** The whole run: no floating-point condition is signalled, so the result
    is the same under every error-reporting setting. *)
Lemma moments_match_ep_probit_1_1_0 lc s :
  moments_match_ep (mkBernoulli Probit lc) (Fin 1) (Fin 1) (Fin 0) s
  = (Ok (Fin (1 / 2), Fin (/ sqrt PI), Fin (1 - / PI)), s).
Proof.
  unfold moments_match_ep. simpl gp_link.
  unfold feqc. rewrite Reqb_refl.
  unfold op2, op1, fsquare.
  assert (Hs2 : 0 < sqrt (1 * 1 + 1)) by (apply sqrt_lt_R0; lra).
  run_scalar.
  replace (1 * 0 / sqrt (1 * 1 + 1)) with 0 by (field; lra).
  cbn [std_norm_cdf std_norm_pdf].
  rewrite std_norm_cdf_R_0, std_norm_pdf_R_0.
  pose proof sqrt_2PI_pos as H2pi.
  assert (Hinv : 0 < / sqrt (2 * PI)) by (apply Rinv_0_lt_compat; exact H2pi).
  run_scalar.
  rewrite probit_mu_hat_value, probit_sigma2_hat_value.
  reflexivity.
Qed.

Lemma inv_sqrt_PI_pos : 0 < / sqrt PI.
Proof.
  apply Rinv_0_lt_compat. apply sqrt_lt_R0. apply PI_RGT_0.
Qed.

(** The Heaviside branch on the same arguments: [Z_hat = 1/2],
    [mu_hat = 2 phi(0)] and [sigma2_hat = 1 - 4 phi(0)^2], with
    [phi(0) = 1/sqrt(2 pi)]. *)
Example moments_match_ep_heaviside_1_1_0 lc s :
  moments_match_ep (mkBernoulli Heaviside lc) (Fin 1) (Fin 1) (Fin 0) s
  = (Ok (Fin (1 / 2),
         Fin (2 * / sqrt (2 * PI)),
         Fin (1 - 4 * (/ sqrt (2 * PI) * / sqrt (2 * PI)))), s).
Proof.
  unfold moments_match_ep. simpl gp_link.
  unfold feqc. rewrite Reqb_refl.
  unfold op2, op1, fsquare.
  rewrite !fsqrt_fin by lra. rewrite !sqrt_1.
  run_scalar.
  replace (1 * 0 / 1) with 0 by lra.
  cbn [std_norm_cdf std_norm_pdf].
  rewrite std_norm_cdf_R_0, std_norm_pdf_R_0.
  pose proof sqrt_2PI_pos as H2pi.
  assert (Hinv : 0 < / sqrt (2 * PI)) by (apply Rinv_0_lt_compat; exact H2pi).
  run_scalar.
  unfold ret.
  replace (0 / 1 + 1 * / sqrt (2 * PI) / (1 / 2) / 1)
    with (2 * / sqrt (2 * PI)) by (field; lra).
  replace ((1 + - (0 * / sqrt (2 * PI) / (1 / 2))
            + - (/ sqrt (2 * PI) / (1 / 2) * (/ sqrt (2 * PI) / (1 / 2))))
           / 1)
    with (1 - 4 * (/ sqrt (2 * PI) * / sqrt (2 * PI))) by (field; lra).
  reflexivity.
Qed.

(** C6, as stated, fails: for the default (Probit) instance the call
    [moments_match_ep(1, 1.0, 0.0)] returns [mu_hat = 1/sqrt(pi)], which is
    not 0. *)
Lemma moments_match_ep_probit_mu_hat_not_zero :
  exists Z_hat mu_hat sigma2_hat,
    fst (moments_match_ep (__init__ None) (Fin 1) (Fin 1) (Fin 0)
           default_fpstate)
    = Ok (Z_hat, mu_hat, sigma2_hat)
    /\ mu_hat <> Fin 0.
Proof.
  exists (Fin (1 / 2)), (Fin (/ sqrt PI)), (Fin (1 - / PI)).
  split.
  - unfold __init__. rewrite moments_match_ep_probit_1_1_0. reflexivity.
  - intros H. injection H as H. pose proof inv_sqrt_PI_pos. lra.
Qed.

(** C6, amended. With the Probit link, [moments_match_ep(1, 1.0, 0.0)]
    returns [Z_hat = 1/2], [mu_hat = 1/sqrt(pi)] and
    [sigma2_hat = 1 - 1/pi]; both [mu_hat] and [sigma2_hat] are strictly
    positive. *)
Theorem moments_match_ep_probit_fixed_values :
  forall lc s,
    moments_match_ep (mkBernoulli Probit lc) (Fin 1) (Fin 1) (Fin 0) s
    = (Ok (Fin (1 / 2), Fin (/ sqrt PI), Fin (1 - / PI)), s)
    /\ 0 < / sqrt PI
    /\ 0 < 1 - / PI.
Proof.
  intros lc s. split; [apply moments_match_ep_probit_1_1_0 |].
  split; [apply inv_sqrt_PI_pos |].
  pose proof PI_gt_1 as Hpi.
  assert (/ PI < / 1) by (apply Rinv_lt_contravar; lra).
  lra.
Qed.

End MomentMatching.

(* ===================================================================== *)
(** ** Arrays of finite values *)
(* ===================================================================== *)

Section ArrayFacts.
Local Open Scope R_scope.

Lemma bind_ok {S A B} (c : M S A) (k : A -> M S B) s a s' :
  c s = (Ok a, s') -> bind c k s = k a s'.
Proof. intros H. unfold bind. rewrite H. reflexivity. Qed.

Lemma bind_fail {S A B} (c : M S A) (k : A -> M S B) s e s' :
  c s = (Raise e, s') -> bind c k s = (Raise e, s').
Proof. intros H. unfold bind. rewrite H. reflexivity. Qed.

Lemma shape_eqb_eq (s1 s2 : list nat) : shape_eqb s1 s2 = true <-> s1 = s2.
Proof.
  revert s2. induction s1 as [|n t IH]; intros [|m t2]; simpl;
    try (split; [discriminate | discriminate]); try tauto.
  rewrite andb_true_iff, Nat.eqb_eq, IH. split.
  - intros [-> ->]. reflexivity.
  - intros H. injection H as -> ->. split; reflexivity.
Qed.

Lemma shape_eqb_refl (sh : list nat) : shape_eqb sh sh = true.
Proof. apply shape_eqb_eq. reflexivity. Qed.

Lemma shape_eqb_neq (s1 s2 : list nat) : s1 <> s2 -> shape_eqb s1 s2 = false.
Proof.
  intros H. destruct (shape_eqb s1 s2) eqn:E; [| reflexivity].
  apply shape_eqb_eq in E. contradiction.
Qed.

Lemma select_map {A B} (f : A -> B) (c : list bool) (a b : list A) :
  select c (map f a) (map f b) = map f (select c a b).
Proof.
  revert a b. induction c as [|ci c IH]; intros [|ai a] [|bi b]; simpl;
    try reflexivity.
  rewrite IH. destruct ci; reflexivity.
Qed.

Lemma In_select {A} (x : A) (c : list bool) (a b : list A) :
  In x (select c a b) -> In x a \/ In x b.
Proof.
  revert a b. induction c as [|ci c IH]; intros [|ai a] [|bi b]; simpl;
    try tauto.
  intros [H | H].
  - destruct ci; subst; auto.
  - destruct (IH _ _ H); auto.
Qed.

Lemma fsub_fin (a b : R) : fsub (Fin a) (Fin b) = (Fin (a - b), NoCond).
Proof. reflexivity. Qed.

Lemma fsquare_fin (a : R) : fsquare (Fin a) = (Fin (a * a), NoCond).
Proof. reflexivity. Qed.

(** An elementwise function that signals nothing on the elements of a finite
    array returns the mapped array under every setting. *)
Lemma ufunc1_fin (f : fnum -> fnum * fpcond) (g : R -> R) sh rs s :
  (forall r, In r rs -> f (Fin r) = (Fin (g r), NoCond)) ->
  ufunc1 f (finite_array sh rs) s = (Ok (finite_array sh (map g rs)), s).
Proof.
  intros H. unfold ufunc1, finite_array. simpl.
  assert (E : map f (map Fin rs) = map (fun r => (Fin (g r), NoCond)) rs).
  { rewrite map_map. apply map_ext_in. exact H. }
  rewrite E. rewrite !map_map. cbn [fst snd].
  rewrite report_all_nocond. reflexivity.
Qed.

Lemma np_where_fin (c : ndarray bool) sh a b :
  np_where c (finite_array sh a) (finite_array sh b)
  = finite_array (broadcast_shape (shape c) (broadcast_shape sh sh))
                 (select (data c) a b).
Proof.
  unfold np_where, finite_array. simpl. rewrite select_map. reflexivity.
Qed.

Lemma sum_from_fin (a : R) (rs : list R) :
  sum_from (Fin a) (map Fin rs)
  = (Fin (a + sumR rs), map (fun _ => NoCond) rs).
Proof.
  revert a. induction rs as [|r t IH]; intros a; simpl.
  - f_equal. f_equal. lra.
  - rewrite IH. simpl. f_equal. f_equal. lra.
Qed.

Lemma np_sum_fin sh rs s :
  np_sum (finite_array sh rs) s = (Ok (Fin (sumR rs)), s).
Proof.
  unfold np_sum, finite_array. simpl. rewrite sum_from_fin. simpl.
  rewrite report_all_nocond.
  f_equal. f_equal. f_equal. lra.
Qed.

End ArrayFacts.

(* ===================================================================== *)
(** ** The likelihood methods on numpy arrays *)
(* ===================================================================== *)

Section OnArrays.
Local Open Scope py_scope.

(** When [link_f] and [y] are numpy arrays, every Python operator in the
    five methods is numpy's elementwise operation, and each method is a
    plain sequence of such operations. *)

Ltac run_both :=
  unfold py_rsub, py_rdiv, py_pow3; unfold bind, ret; cbn [as_array];
  repeat match goal with
         | |- context [assert_same_shape ?a ?b ?s] =>
             destruct (assert_same_shape a b s) as [[? | ?] ?];
             cbn iota beta; try reflexivity
         | |- context [seterr_divide ?m ?s] =>
             destruct (seterr_divide m s) as [[? | ?] ?];
             cbn iota beta; try reflexivity
         | |- context [ufunc1 ?f ?a ?s] =>
             destruct (ufunc1 f a s) as [[? | ?] ?];
             cbn iota beta; cbn [as_array]; try reflexivity
         end.

Lemma pdf_link_arrays self (link_f y : ndarray fnum) s :
  pdf_link self link_f y s
  = (assert_same_shape link_f y ;;;
     one_minus <- ufunc1 (fsub (Fin 1)) link_f ;;
     let objective := np_where (astype_bool y) link_f one_minus in
     logs <- ufunc1 flog objective ;;
     total <- np_sum logs ;;
     op1 fexp total) s.
Proof. unfold pdf_link. run_both. Qed.

Lemma logpdf_link_arrays self (link_f y : ndarray fnum) s :
  logpdf_link self link_f y s
  = (assert_same_shape link_f y ;;;
     state <- seterr_divide ModeIgnore ;;
     log_f <- ufunc1 flog link_f ;;
     one_minus <- ufunc1 (fsub (Fin 1)) link_f ;;
     log_1mf <- ufunc1 flog one_minus ;;
     let objective := np_where (eq_const y 1) log_f log_1mf in
     seterr_all state ;;;
     np_sum objective) s.
Proof. unfold logpdf_link. run_both. Qed.

Lemma dlogpdf_dlink_arrays self (link_f y : ndarray fnum) s :
  dlogpdf_dlink self link_f y s
  = (assert_same_shape link_f y ;;;
     state <- seterr_divide ModeIgnore ;;
     inv_f <- ufunc1 (fdiv (Fin 1)) link_f ;;
     one_minus <- ufunc1 (fsub (Fin 1)) link_f ;;
     inv_1mf <- ufunc1 (fdiv (Fin (-1))) one_minus ;;
     let grad := np_where (astype_bool y) inv_f inv_1mf in
     seterr_all state ;;;
     ret grad) s.
Proof. unfold dlogpdf_dlink. run_both. Qed.

Lemma d2logpdf_dlink2_arrays self (link_f y : ndarray fnum) s :
  d2logpdf_dlink2 self link_f y s
  = (assert_same_shape link_f y ;;;
     state <- seterr_divide ModeIgnore ;;
     sq_f <- ufunc1 fsquare link_f ;;
     a <- ufunc1 (fdiv (Fin (-1))) sq_f ;;
     one_minus <- ufunc1 (fsub (Fin 1)) link_f ;;
     sq_1mf <- ufunc1 fsquare one_minus ;;
     b <- ufunc1 (fdiv (Fin (-1))) sq_1mf ;;
     let d2 := np_where (astype_bool y) a b in
     seterr_all state ;;;
     ret d2) s.
Proof. unfold d2logpdf_dlink2. run_both. Qed.

Lemma d3logpdf_dlink3_arrays self (link_f y : ndarray fnum) s :
  d3logpdf_dlink3 self link_f y s
  = (assert_same_shape link_f y ;;;
     state <- seterr_divide ModeIgnore ;;
     cube_f <- ufunc1 fcube link_f ;;
     a <- ufunc1 (fdiv (Fin 2)) cube_f ;;
     one_minus <- ufunc1 (fsub (Fin 1)) link_f ;;
     cube_1mf <- ufunc1 fcube one_minus ;;
     b <- ufunc1 (fdiv (Fin (-2))) cube_1mf ;;
     let d3 := np_where (astype_bool y) a b in
     seterr_all state ;;;
     ret d3) s.
Proof. unfold d3logpdf_dlink3. run_both. Qed.

End OnArrays.

(* ===================================================================== *)
(** ** pdf_link and logpdf_link *)
(* ===================================================================== *)

Section Likelihood.
Local Open Scope R_scope.

Lemma unit_open_In ls l : unit_open ls -> In l ls -> 0 < l < 1.
Proof. intros H. apply (proj1 (Forall_forall _ _) H). Qed.

Lemma assert_same_shape_ok link_f y s :
  atleast_1d_shape (shape link_f) = atleast_1d_shape (shape y) ->
  assert_same_shape link_f y s = (Ok tt, s).
Proof.
  intros H. unfold assert_same_shape. cbn [as_array].
  rewrite H, shape_eqb_refl. reflexivity.
Qed.

Lemma assert_same_shape_fails link_f y s :
  atleast_1d_shape (shape link_f) <> atleast_1d_shape (shape y) ->
  assert_same_shape link_f y s = (Raise (AssertionError EmptyString), s).
Proof.
  intros H. unfold assert_same_shape. cbn [as_array].
  rewrite (shape_eqb_neq _ _ H). reflexivity.
Qed.

Lemma pdf_terms_pos ys ls r :
  unit_open ls -> In r (pdf_terms ys ls) -> 0 < r.
Proof.
  intros Hls Hin. unfold pdf_terms in Hin.
  apply In_select in Hin. destruct Hin as [Hin | Hin].
  - apply (unit_open_In _ _ Hls) in Hin. lra.
  - apply in_map_iff in Hin. destruct Hin as [l [<- Hl]].
    apply (unit_open_In _ _ Hls) in Hl. lra.
Qed.

(** [pdf_link] on link values in (0,1), for any labels. *)
Lemma pdf_link_fin self sh ls y s :
  atleast_1d_shape sh = atleast_1d_shape (shape y) ->
  unit_open ls ->
  pdf_link self (finite_array sh ls) y s
  = (Ok (Fin (exp (sumR (map ln (pdf_terms (data y) ls))))), s).
Proof.
  intros Hsh Hls. rewrite pdf_link_arrays.
  erewrite bind_ok by (apply assert_same_shape_ok; exact Hsh).
  erewrite bind_ok
    by (apply (ufunc1_fin _ (fun l => 1 - l)); intros; apply fsub_fin).
  rewrite np_where_fin.
  erewrite bind_ok.
  2:{ apply (ufunc1_fin _ ln). intros r Hr. apply flog_fin.
      exact (pdf_terms_pos _ _ _ Hls Hr). }
  erewrite bind_ok by apply np_sum_fin.
  reflexivity.
Qed.

(** [logpdf_link] on link values in (0,1), for any labels: the settings are
    back to what they were. *)
Lemma logpdf_link_fin self sh ls y s :
  atleast_1d_shape sh = atleast_1d_shape (shape y) ->
  unit_open ls ->
  logpdf_link self (finite_array sh ls) y s
  = (Ok (Fin (sumR (logpdf_terms (data y) ls))), s).
Proof.
  intros Hsh Hls. rewrite logpdf_link_arrays.
  erewrite bind_ok by (apply assert_same_shape_ok; exact Hsh).
  erewrite bind_ok by (unfold seterr_divide; reflexivity).
  erewrite bind_ok.
  2:{ apply (ufunc1_fin _ ln). intros r Hr. apply flog_fin.
      apply (unit_open_In _ _ Hls) in Hr. lra. }
  erewrite bind_ok
    by (apply (ufunc1_fin _ (fun l => 1 - l)); intros; apply fsub_fin).
  erewrite bind_ok.
  2:{ apply (ufunc1_fin _ ln). intros r Hr. apply flog_fin.
      apply in_map_iff in Hr. destruct Hr as [l [<- Hl]].
      apply (unit_open_In _ _ Hls) in Hl. lra. }
  rewrite np_where_fin.
  erewrite bind_ok by (unfold seterr_all; reflexivity).
  rewrite np_sum_fin. reflexivity.
Qed.

(** On labels in {0,1} the two tests ([y] as a truth value, [y == 1])
    agree. *)
Lemma label_tests_agree ys :
  Forall is_label ys -> map truthy ys = map (fun v => feqc v 1) ys.
Proof.
  induction 1 as [|v t Hv _ IH]; simpl; [reflexivity |].
  rewrite IH. f_equal. destruct Hv as [-> | ->]; simpl.
  - rewrite Reqb_refl, Reqb_neq by lra. reflexivity.
  - rewrite Reqb_refl, Reqb_neq by lra. reflexivity.
Qed.

Lemma terms_agree_on_labels ys ls :
  Forall is_label ys -> map ln (pdf_terms ys ls) = logpdf_terms ys ls.
Proof.
  intros H. unfold pdf_terms, logpdf_terms.
  rewrite <- select_map, (label_tests_agree _ H). reflexivity.
Qed.

(** One element: what each method returns for the label 1, for the label 0
    and for any other label. *)
Lemma single_label self l (v : fnum) s :
  0 < l < 1 ->
  pdf_link self (finite_array [1%nat] [l]) (mkArr [1%nat] [v]) s
  = (Ok (Fin (if truthy v then l else 1 - l)), s)
  /\ logpdf_link self (finite_array [1%nat] [l]) (mkArr [1%nat] [v]) s
     = (Ok (Fin (if feqc v 1 then ln l else ln (1 - l))), s).
Proof.
  intros Hl.
  assert (Hls : unit_open [l]) by (constructor; [exact Hl | constructor]).
  split.
  - rewrite pdf_link_fin by (try reflexivity; exact Hls).
    unfold pdf_terms. simpl.
    rewrite Rplus_0_r, exp_ln by (destruct (truthy v); lra). reflexivity.
  - rewrite logpdf_link_fin by (try reflexivity; exact Hls).
    unfold logpdf_terms. simpl.
    rewrite Rplus_0_r. destruct (feqc v 1); reflexivity.
Qed.

Lemma single_label_outside self l (v : fnum) s :
  0 < l < 1 -> v <> Fin 0 -> v <> Fin 1 ->
  pdf_link self (finite_array [1%nat] [l]) (mkArr [1%nat] [v]) s
  = (Ok (Fin l), s)
  /\ logpdf_link self (finite_array [1%nat] [l]) (mkArr [1%nat] [v]) s
     = (Ok (Fin (ln (1 - l))), s).
Proof.
  intros Hl H0 H1. destruct (single_label self l v s Hl) as [Hp Hll].
  rewrite Hp, Hll.
  rewrite (proj2 (truthy_true v) H0), (proj2 (feqc_false v 1) H1).
  split; reflexivity.
Qed.

(** Two elements with labels 1 and 0: the likelihood is the product
    [1/4 * (1 - 1/2)]. *)
Example pdf_link_two_elements s :
  pdf_link (__init__ None) (finite_array [2%nat] [1 / 4; 1 / 2])
    (finite_array [2%nat] [1; 0]) s
  = (Ok (Fin (1 / 8)), s).
Proof.
  rewrite pdf_link_fin;
    [| reflexivity | repeat constructor; lra].
  unfold pdf_terms. simpl.
  rewrite Reqb_refl, Reqb_neq by lra. simpl.
  rewrite Rplus_0_r, exp_plus, !exp_ln by lra.
  do 3 f_equal. lra.
Qed.

Lemma quarter_not_three_quarters : 1 / 4 <> exp (ln (1 - 1 / 4)).
Proof. rewrite exp_ln by lra. lra. Qed.

(** Outside the domain of [y]: with the single link value 1/4 and the single
    label 2 (same shape), [pdf_link] returns 1/4 while the exponential of
    what [logpdf_link] returns is 3/4. *)
Lemma likelihood_not_exp_log_likelihood_label_2 :
  exists p ll,
    fst (pdf_link (__init__ None)
           (finite_array [1%nat] [1 / 4]) (finite_array [1%nat] [2])
           default_fpstate) = Ok (Fin p)
    /\ fst (logpdf_link (__init__ None)
              (finite_array [1%nat] [1 / 4]) (finite_array [1%nat] [2])
              default_fpstate) = Ok (Fin ll)
    /\ p <> exp ll.
Proof.
  exists (1 / 4), (ln (1 - 1 / 4)).
  destruct (single_label_outside (__init__ None) (1 / 4) (Fin 2)
              default_fpstate) as [Hp Hl];
    try lra; try (intros H; injection H as H; lra).
  change (finite_array [1%nat] [2]) with (mkArr [1%nat] [Fin 2]).
  rewrite Hp, Hl. repeat split. apply quarter_not_three_quarters.
Qed.

(** C2. On the domain of the two methods (arrays of the same shape, link
    values strictly between 0 and 1, labels that are each exactly 0 or 1),
    [pdf_link] returns a value and it is the exponential of what
    [logpdf_link] returns: the call equals [np.exp] applied to the result of
    [logpdf_link]. (Exact reals.) *)
Theorem likelihood_is_exp_log_likelihood :
  forall self sh ls y s,
    shape y = sh ->
    unit_open ls ->
    Forall is_label (data y) ->
    (exists ll,
        logpdf_link self (finite_array sh ls) y s = (Ok (Fin ll), s)
        /\ pdf_link self (finite_array sh ls) y s = (Ok (Fin (exp ll)), s))
    /\ pdf_link self (finite_array sh ls) y s
       = bind (logpdf_link self (finite_array sh ls) y) (op1 fexp) s.
Proof.
  intros self sh ls y s Hsh Hls Hy.
  assert (Hsh' : atleast_1d_shape sh = atleast_1d_shape (shape y))
    by (rewrite Hsh; reflexivity).
  pose proof (pdf_link_fin self sh ls y s Hsh' Hls) as Hp.
  pose proof (logpdf_link_fin self sh ls y s Hsh' Hls) as Hl.
  rewrite (terms_agree_on_labels _ _ Hy) in Hp.
  split.
  - eexists. split; [exact Hl | exact Hp].
  - rewrite Hp. erewrite bind_ok by exact Hl. reflexivity.
Qed.

Lemma likelihood_is_exp_log_likelihood_witness :
  exists ll,
    logpdf_link (__init__ None) (finite_array [2%nat] [1 / 4; 1 / 2])
      (finite_array [2%nat] [1; 0]) default_fpstate
    = (Ok (Fin ll), default_fpstate)
    /\ pdf_link (__init__ None) (finite_array [2%nat] [1 / 4; 1 / 2])
         (finite_array [2%nat] [1; 0]) default_fpstate
       = (Ok (Fin (exp ll)), default_fpstate).
Proof.
  apply (likelihood_is_exp_log_likelihood (__init__ None) [2%nat]
           [1 / 4; 1 / 2] (finite_array [2%nat] [1; 0]) default_fpstate).
  - reflexivity.
  - repeat constructor; lra.
  - simpl. apply Forall_cons; [right; reflexivity |].
    apply Forall_cons; [left; reflexivity | apply Forall_nil].
Defined.

(** The terms the two methods select, position by position. *)
Lemma pdf_terms_choice ys ls :
  Forall2 (fun vl t => pdf_choice (fst vl) (snd vl) t)
    (combine ys ls) (pdf_terms ys ls).
Proof.
  unfold pdf_terms. revert ls.
  induction ys as [|v ys IH]; intros [|l ls]; simpl; constructor;
    [| apply IH].
  unfold pdf_choice. simpl. destruct (truthy v) eqn:E.
  - right. split; [apply truthy_true; exact E | reflexivity].
  - left. split; [apply truthy_false; exact E | reflexivity].
Qed.

Lemma logpdf_terms_choice ys ls :
  Forall2 (fun vl t => logpdf_choice (fst vl) (snd vl) t)
    (combine ys ls) (logpdf_terms ys ls).
Proof.
  unfold logpdf_terms. revert ls.
  induction ys as [|v ys IH]; intros [|l ls]; simpl; constructor;
    [| apply IH].
  unfold logpdf_choice. simpl. destruct (feqc v 1) eqn:E.
  - left. split; [apply feqc_true; exact E | reflexivity].
  - right. split; [apply feqc_false; exact E | reflexivity].
Qed.

(** C9. Neither method validates the labels, and they classify them
    differently. For link values in (0,1) and arbitrary labels of a matching
    shape both return a value. [pdf_link] returns the exponential of the sum
    of the logarithms of the probabilities it selects: [1 - link_f] where the
    label is 0 and [link_f] for every other label. [logpdf_link] returns the
    sum of the terms it selects: [log link_f] where the label is 1 and
    [log (1 - link_f)] for every other label. So on one element both agree
    on the labels 1 and 0 ([link_f] and [log link_f]; [1 - link_f] and
    [log (1 - link_f)]), and on any other label the first returns [link_f]
    and the second [log (1 - link_f)]; with label 2 and link value 1/4 the
    likelihood 1/4 differs from the exponential 3/4 of the
    log-likelihood. *)
Theorem likelihoods_classify_labels_differently :
  (forall self sh ls y s,
      atleast_1d_shape sh = atleast_1d_shape (shape y) ->
      unit_open ls ->
      exists ps ts,
        pdf_link self (finite_array sh ls) y s
        = (Ok (Fin (exp (sumR (map ln ps)))), s)
        /\ Forall2 (fun vl p => pdf_choice (fst vl) (snd vl) p)
             (combine (data y) ls) ps
        /\ logpdf_link self (finite_array sh ls) y s = (Ok (Fin (sumR ts)), s)
        /\ Forall2 (fun vl t => logpdf_choice (fst vl) (snd vl) t)
             (combine (data y) ls) ts)
  /\ (forall self l v s,
         0 < l < 1 ->
         (v = Fin 1 ->
            pdf_link self (finite_array [1%nat] [l]) (mkArr [1%nat] [v]) s
            = (Ok (Fin l), s)
            /\ logpdf_link self (finite_array [1%nat] [l])
                 (mkArr [1%nat] [v]) s
               = (Ok (Fin (ln l)), s))
         /\ (v = Fin 0 ->
               pdf_link self (finite_array [1%nat] [l]) (mkArr [1%nat] [v]) s
               = (Ok (Fin (1 - l)), s)
               /\ logpdf_link self (finite_array [1%nat] [l])
                    (mkArr [1%nat] [v]) s
                  = (Ok (Fin (ln (1 - l))), s))
         /\ (v <> Fin 0 -> v <> Fin 1 ->
               pdf_link self (finite_array [1%nat] [l]) (mkArr [1%nat] [v]) s
               = (Ok (Fin l), s)
               /\ logpdf_link self (finite_array [1%nat] [l])
                    (mkArr [1%nat] [v]) s
                  = (Ok (Fin (ln (1 - l))), s)))
  /\ 1 / 4 <> exp (ln (1 - 1 / 4)).
Proof.
  split; [| split].
  - intros self sh ls y s Hsh Hls.
    exists (pdf_terms (data y) ls), (logpdf_terms (data y) ls).
    split; [apply pdf_link_fin; assumption |].
    split; [apply pdf_terms_choice |].
    split; [apply logpdf_link_fin; assumption |].
    apply logpdf_terms_choice.
  - intros self l v s Hl.
    destruct (single_label self l v s Hl) as [Hp Hll].
    split; [| split].
    + intros ->. rewrite Hp, Hll. simpl.
      rewrite Reqb_refl, Reqb_neq by lra. split; reflexivity.
    + intros ->. rewrite Hp, Hll. simpl.
      rewrite Reqb_refl, Reqb_neq by lra. split; reflexivity.
    + apply single_label_outside. exact Hl.
  - apply quarter_not_three_quarters.
Qed.

Lemma likelihoods_classify_labels_differently_witness :
  pdf_link (__init__ None) (finite_array [1%nat] [1 / 4])
    (mkArr [1%nat] [Fin 2]) default_fpstate
  = (Ok (Fin (1 / 4)), default_fpstate)
  /\ logpdf_link (__init__ None) (finite_array [1%nat] [1 / 4])
       (mkArr [1%nat] [Fin 2]) default_fpstate
     = (Ok (Fin (ln (1 - 1 / 4))), default_fpstate).
Proof.
  apply (proj1 (proj2 likelihoods_classify_labels_differently)
           (__init__ None) (1 / 4) (Fin 2) default_fpstate).
  - lra.
  - intros H. injection H as H. lra.
  - intros H. injection H as H. lra.
Defined.

End Likelihood.

(* ===================================================================== *)
(** ** The derivative methods *)
(* ===================================================================== *)

Section Derivatives.
Local Open Scope R_scope.

Lemma broadcast_shape_same (sh : list nat) : broadcast_shape sh sh = sh.
Proof. destruct sh; reflexivity. Qed.

(** [d2logpdf_dlink2] on link values in (0,1), for any labels. *)
Lemma d2logpdf_dlink2_fin self sh ls y s :
  atleast_1d_shape sh = atleast_1d_shape (shape y) ->
  unit_open ls ->
  d2logpdf_dlink2 self (finite_array sh ls) y s
  = (Ok (finite_array
           (broadcast_shape (shape y) (broadcast_shape sh sh))
           (select (map truthy (data y))
                   (map (fun l => -1 / (l * l)) ls)
                   (map (fun l => -1 / ((1 - l) * (1 - l))) ls))), s).
Proof.
  intros Hsh Hls. rewrite d2logpdf_dlink2_arrays.
  erewrite bind_ok by (apply assert_same_shape_ok; exact Hsh).
  erewrite bind_ok by (unfold seterr_divide; reflexivity).
  erewrite bind_ok
    by (apply (ufunc1_fin _ (fun l => l * l)); intros; apply fsquare_fin).
  erewrite bind_ok.
  2:{ apply (ufunc1_fin _ (fun q => -1 / q)). intros q Hq. apply fdiv_fin.
      apply in_map_iff in Hq. destruct Hq as [l [<- Hl]].
      apply (unit_open_In _ _ Hls) in Hl. nra. }
  erewrite bind_ok
    by (apply (ufunc1_fin _ (fun l => 1 - l)); intros; apply fsub_fin).
  erewrite bind_ok
    by (apply (ufunc1_fin _ (fun l => l * l)); intros; apply fsquare_fin).
  erewrite bind_ok.
  2:{ apply (ufunc1_fin _ (fun q => -1 / q)). intros q Hq. apply fdiv_fin.
      apply in_map_iff in Hq. destruct Hq as [m [<- Hm]].
      apply in_map_iff in Hm. destruct Hm as [l [<- Hl]].
      apply (unit_open_In _ _ Hls) in Hl. nra. }
  rewrite np_where_fin.
  erewrite bind_ok by (unfold seterr_all; reflexivity).
  rewrite !map_map. reflexivity.
Qed.

(** [dlogpdf_dlink] on link values in (0,1), for any labels. *)
Lemma dlogpdf_dlink_fin self sh ls y s :
  atleast_1d_shape sh = atleast_1d_shape (shape y) ->
  unit_open ls ->
  dlogpdf_dlink self (finite_array sh ls) y s
  = (Ok (finite_array
           (broadcast_shape (shape y) (broadcast_shape sh sh))
           (select (map truthy (data y))
                   (map (fun l => 1 / l) ls)
                   (map (fun l => -1 / (1 - l)) ls))), s).
Proof.
  intros Hsh Hls. rewrite dlogpdf_dlink_arrays.
  erewrite bind_ok by (apply assert_same_shape_ok; exact Hsh).
  erewrite bind_ok by (unfold seterr_divide; reflexivity).
  erewrite bind_ok.
  2:{ apply (ufunc1_fin _ (fun l => 1 / l)). intros l Hl. apply fdiv_fin.
      apply (unit_open_In _ _ Hls) in Hl. lra. }
  erewrite bind_ok
    by (apply (ufunc1_fin _ (fun l => 1 - l)); intros; apply fsub_fin).
  erewrite bind_ok.
  2:{ apply (ufunc1_fin _ (fun q => -1 / q)). intros q Hq. apply fdiv_fin.
      apply in_map_iff in Hq. destruct Hq as [l [<- Hl]].
      apply (unit_open_In _ _ Hls) in Hl. lra. }
  rewrite np_where_fin.
  erewrite bind_ok by (unfold seterr_all; reflexivity).
  rewrite !map_map. reflexivity.
Qed.

(** Two elements with labels 1 and 0: the gradient is [1/link_f] at the
    first and [-1/(1 - link_f)] at the second. *)
Example dlogpdf_dlink_two_elements s :
  dlogpdf_dlink (__init__ None) (finite_array [2%nat] [1 / 4; 1 / 2])
    (finite_array [2%nat] [1; 0]) s
  = (Ok (finite_array [2%nat] [1 / (1 / 4); -1 / (1 - 1 / 2)]), s).
Proof.
  rewrite dlogpdf_dlink_fin;
    [| reflexivity | repeat constructor; lra].
  simpl. rewrite Reqb_refl, Reqb_neq by lra. reflexivity.
Qed.

Lemma fcube_fin (a : R) : fcube (Fin a) = (Fin (a * a * a), NoCond).
Proof. reflexivity. Qed.

(** [d3logpdf_dlink3] on link values in (0,1), for any labels. *)
Lemma d3logpdf_dlink3_fin self sh ls y s :
  atleast_1d_shape sh = atleast_1d_shape (shape y) ->
  unit_open ls ->
  d3logpdf_dlink3 self (finite_array sh ls) y s
  = (Ok (finite_array
           (broadcast_shape (shape y) (broadcast_shape sh sh))
           (select (map truthy (data y))
                   (map (fun l => 2 / (l * l * l)) ls)
                   (map (fun l => -2 / ((1 - l) * (1 - l) * (1 - l))) ls))),
     s).
Proof.
  intros Hsh Hls. rewrite d3logpdf_dlink3_arrays.
  erewrite bind_ok by (apply assert_same_shape_ok; exact Hsh).
  erewrite bind_ok by (unfold seterr_divide; reflexivity).
  erewrite bind_ok
    by (apply (ufunc1_fin _ (fun l => l * l * l)); intros; apply fcube_fin).
  erewrite bind_ok.
  2:{ apply (ufunc1_fin _ (fun q => 2 / q)). intros q Hq. apply fdiv_fin.
      apply in_map_iff in Hq. destruct Hq as [l [<- Hl]].
      apply (unit_open_In _ _ Hls) in Hl.
      assert (0 < l * l) by nra. nra. }
  erewrite bind_ok
    by (apply (ufunc1_fin _ (fun l => 1 - l)); intros; apply fsub_fin).
  erewrite bind_ok
    by (apply (ufunc1_fin _ (fun l => l * l * l)); intros; apply fcube_fin).
  erewrite bind_ok.
  2:{ apply (ufunc1_fin _ (fun q => -2 / q)). intros q Hq. apply fdiv_fin.
      apply in_map_iff in Hq. destruct Hq as [m [<- Hm]].
      apply in_map_iff in Hm. destruct Hm as [l [<- Hl]].
      apply (unit_open_In _ _ Hls) in Hl.
      assert (0 < (1 - l) * (1 - l)) by nra. nra. }
  rewrite np_where_fin.
  erewrite bind_ok by (unfold seterr_all; reflexivity).
  rewrite !map_map. reflexivity.
Qed.

Lemma neg_inv_square_neg (x : R) : x <> 0 -> -1 / (x * x) < 0.
Proof.
  intros Hx. assert (Hpos : 0 < x * x) by nra.
  apply Rinv_0_lt_compat in Hpos. unfold Rdiv. nra.
Qed.

(** C10. For link values strictly between 0 and 1 and labels of the same
    shape, [d2logpdf_dlink2] returns an array of that shape whose element at
    each position is [-1/link_f^2] (label true as a number) or
    [-1/(1-link_f)^2] (otherwise); every element is strictly negative. *)
Theorem d2logpdf_dlink2_negative :
  forall self sh ls y s,
    shape y = sh ->
    unit_open ls ->
    exists ds,
      d2logpdf_dlink2 self (finite_array sh ls) y s
      = (Ok (finite_array sh ds), s)
      /\ ds = select (map truthy (data y))
                     (map (fun l => -1 / (l * l)) ls)
                     (map (fun l => -1 / ((1 - l) * (1 - l))) ls)
      /\ Forall (fun d => d < 0) ds.
Proof.
  intros self sh ls y s Hsh Hls.
  eexists. split; [| split; [reflexivity |]].
  - rewrite d2logpdf_dlink2_fin by (try rewrite Hsh; auto).
    rewrite Hsh, !broadcast_shape_same. reflexivity.
  - apply Forall_forall. intros d Hd.
    apply In_select in Hd.
    destruct Hd as [Hd | Hd]; apply in_map_iff in Hd;
      destruct Hd as [l [<- Hl]]; apply (unit_open_In _ _ Hls) in Hl;
      apply neg_inv_square_neg; lra.
Qed.

Lemma d2logpdf_dlink2_negative_witness :
  exists ds,
    d2logpdf_dlink2 (__init__ None) (finite_array [2%nat] [1 / 4; 1 / 2])
      (finite_array [2%nat] [1; 0]) default_fpstate
    = (Ok (finite_array [2%nat] ds), default_fpstate)
    /\ ds = select (map truthy (data (finite_array [2%nat] [1; 0])))
                   (map (fun l => -1 / (l * l)) [1 / 4; 1 / 2])
                   (map (fun l => -1 / ((1 - l) * (1 - l))) [1 / 4; 1 / 2])
    /\ Forall (fun d => d < 0) ds.
Proof.
  apply (d2logpdf_dlink2_negative (__init__ None) [2%nat] [1 / 4; 1 / 2]
           (finite_array [2%nat] [1; 0]) default_fpstate).
  - reflexivity.
  - repeat constructor; lra.
Defined.

End Derivatives.

(* ===================================================================== *)
(** ** Scoped suppression of the divide-by-zero report *)
(* ===================================================================== *)

Section Suppression.
Local Open Scope R_scope.



















(** The same leak with an exception that is not a floating-point report:
    a Python float [link_f] of exactly 0 makes [1./link_f] raise
    [ZeroDivisionError] in [dlogpdf_dlink], and [2./(link_f**3)] in
    [d3logpdf_dlink3]; a Python float of exactly 1 does so through
    [-1./(1-link_f)]. The divide mode is left at ['ignore']. *)
Example python_zero_division_leaves_divide_ignored s :
  dlogpdf_dlink (__init__ None) (PyNum (Fin 0)) vector_one s
  = (Raise ZeroDivisionError, set_divide ModeIgnore s)
  /\ dlogpdf_dlink (__init__ None) (PyNum (Fin 1)) vector_one s
     = (Raise ZeroDivisionError, set_divide ModeIgnore s)
  /\ d3logpdf_dlink3 (__init__ None) (PyNum (Fin 0)) vector_one s
     = (Raise ZeroDivisionError, set_divide ModeIgnore s)
  /\ d3logpdf_dlink3 (__init__ None) (PyNum (Fin 1)) vector_one s
     = (Raise ZeroDivisionError, set_divide ModeIgnore s).
Proof.
  unfold dlogpdf_dlink, d3logpdf_dlink3, py_rdiv, py_rsub, py_pow3.
  unfold bind, assert_same_shape, assert_, seterr_divide, ret, raise.
  cbn [as_array shape vector_one finite_array atleast_1d_shape shape_eqb
       Nat.eqb andb fst snd fsub fadd fneg fcube feqc].
  replace (1 + - 1) with 0 by lra.
  replace (0 * 0 * 0) with 0 by lra.
  rewrite !Reqb_refl, (Reqb_neq 1 0) by lra. cbn iota.
  replace (1 + - 0) with 1 by lra.
  replace (1 * 1 * 1) with 1 by lra.
  rewrite ?Reqb_refl, ?(Reqb_neq 1 0) by lra.
  replace (1 + - (1)) with 0 by lra.
  replace (0 * 0 * 0) with 0 by lra.
  rewrite !Reqb_refl. repeat split.
Qed.

(** And with numpy's [NameError]: with the invalid-operation report set to
    call a handler and none installed, [logpdf_link] on the link value -1
    leaves the divide mode at ['ignore'] too. *)
Example missing_handler_leaves_divide_ignored :
  logpdf_link (__init__ None)
    (finite_array [1%nat] [(-1)%R]) (finite_array [1%nat] [1%R])
    (mkFpstate ModeWarn ModeWarn ModeIgnore ModeCall NoHandler false)
  = (Raise no_handler,
     mkFpstate ModeIgnore ModeWarn ModeIgnore ModeCall NoHandler false).
Proof.
  rewrite logpdf_link_arrays.
  erewrite bind_ok by reflexivity.
  erewrite bind_ok by reflexivity.
  erewrite bind_fail; [reflexivity |].
  unfold ufunc1, finite_array. simpl.
  rewrite Reqb_neq by lra. rewrite Rltb_true by lra. reflexivity.
Qed.

(** The suppression at work: with the divide report set to raise,
    [logpdf_link] on a link value of exactly 0 returns minus infinity and
    restores the settings, while [pdf_link], which does not suppress,
    raises. *)
Example logpdf_link_suppresses_divide :
  logpdf_link (__init__ None)
    (finite_array [1%nat] [0%R]) (finite_array [1%nat] [1%R]) divide_raises
  = (Ok NInf, divide_raises).
Proof.
  rewrite logpdf_link_arrays.
  erewrite bind_ok by reflexivity.
  erewrite bind_ok by reflexivity.
  erewrite bind_ok.
  2:{ unfold ufunc1, finite_array. simpl. rewrite Reqb_refl. reflexivity. }
  erewrite bind_ok by reflexivity.
  erewrite bind_ok.
  2:{ unfold ufunc1. simpl. rewrite Reqb_neq by lra.
      rewrite Rltb_false by lra. reflexivity. }
  erewrite bind_ok by reflexivity.
  unfold np_sum, np_where, eq_const, finite_array. simpl.
  rewrite Reqb_refl. reflexivity.
Qed.

Example pdf_link_reports_divide :
  pdf_link (__init__ None)
    (finite_array [1%nat] [0%R]) (finite_array [1%nat] [1%R]) divide_raises
  = (Raise FloatingPointError, divide_raises).
Proof.
  rewrite pdf_link_arrays.
  erewrite bind_ok by reflexivity.
  erewrite bind_ok by reflexivity.
  erewrite bind_fail; [reflexivity |].
  unfold ufunc1, np_where, astype_bool, finite_array. simpl.
  rewrite (Reqb_neq 1 0) by lra. simpl. rewrite Reqb_refl. reflexivity.
Qed.


End Suppression.

(* ===================================================================== *)
(** ** The shape assertion *)
(* ===================================================================== *)

Section ShapeAssertion.
Local Open Scope R_scope.

Lemma unit_open_half : unit_open [1 / 2].
Proof. constructor; [lra | constructor]. Qed.

(** C8, as stated, fails: a 0-d [link_f] and a [y] of shape (1,) have
    different shapes, yet the assertion (which compares the shapes after
    [np.atleast_1d]) passes and all five methods return a result, the
    derivative methods one of the broadcast shape (1,). *)
Lemma zero_d_link_broadcast_against_vector :
  shape scalar_half <> shape vector_one
  /\ pdf_link (__init__ None) scalar_half vector_one default_fpstate
     = (Ok (Fin (1 / 2)), default_fpstate)
  /\ logpdf_link (__init__ None) scalar_half vector_one default_fpstate
     = (Ok (Fin (ln (1 / 2))), default_fpstate)
  /\ dlogpdf_dlink (__init__ None) scalar_half vector_one default_fpstate
     = (Ok (finite_array [1%nat] [1 / (1 / 2)]), default_fpstate)
  /\ d2logpdf_dlink2 (__init__ None) scalar_half vector_one default_fpstate
     = (Ok (finite_array [1%nat] [-1 / (1 / 2 * (1 / 2))]), default_fpstate)
  /\ d3logpdf_dlink3 (__init__ None) scalar_half vector_one default_fpstate
     = (Ok (finite_array [1%nat] [2 / (1 / 2 * (1 / 2) * (1 / 2))]),
        default_fpstate).
Proof.
  pose proof unit_open_half as Hh.
  unfold scalar_half, vector_one.
  split; [simpl; discriminate |].
  split; [| split; [| split; [| split]]].
  - rewrite pdf_link_fin by (try reflexivity; exact Hh).
    unfold pdf_terms. simpl. rewrite Reqb_neq by lra. simpl.
    rewrite Rplus_0_r, exp_ln by lra. reflexivity.
  - rewrite logpdf_link_fin by (try reflexivity; exact Hh).
    unfold logpdf_terms. simpl. rewrite Reqb_refl. simpl.
    rewrite Rplus_0_r. reflexivity.
  - rewrite dlogpdf_dlink_fin by (try reflexivity; exact Hh).
    simpl. rewrite Reqb_neq by lra. reflexivity.
  - rewrite d2logpdf_dlink2_fin by (try reflexivity; exact Hh).
    simpl. rewrite Reqb_neq by lra. reflexivity.
  - rewrite d3logpdf_dlink3_fin by (try reflexivity; exact Hh).
    simpl. rewrite Reqb_neq by lra. reflexivity.
Qed.

(** C8, amended. Whenever the shapes of [link_f] and [y] still differ after
    [np.atleast_1d] (which only turns a 0-d array into one of shape (1,)),
    each of the five methods raises the [AssertionError] of its shape
    assertion before computing anything, and leaves the settings alone. *)
Theorem shape_mismatch_raises_assertion_error :
  forall self link_f y s,
    atleast_1d_shape (shape link_f) <> atleast_1d_shape (shape y) ->
    pdf_link self link_f y s = (Raise (AssertionError EmptyString), s)
    /\ logpdf_link self link_f y s = (Raise (AssertionError EmptyString), s)
    /\ dlogpdf_dlink self link_f y s = (Raise (AssertionError EmptyString), s)
    /\ d2logpdf_dlink2 self link_f y s
       = (Raise (AssertionError EmptyString), s)
    /\ d3logpdf_dlink3 self link_f y s
       = (Raise (AssertionError EmptyString), s).
Proof.
  intros self link_f y s H.
  pose proof (assert_same_shape_fails link_f y s H) as Ha.
  unfold pdf_link, logpdf_link, dlogpdf_dlink, d2logpdf_dlink2,
    d3logpdf_dlink3.
  repeat split; apply (bind_fail _ _ _ _ _ Ha).
Qed.

Lemma shape_mismatch_raises_assertion_error_witness :
  pdf_link (__init__ None)
    (finite_array [2%nat] [1 / 4; 1 / 2]) (finite_array [3%nat] [1; 0; 1])
    default_fpstate
  = (Raise (AssertionError EmptyString), default_fpstate).
Proof.
  apply (shape_mismatch_raises_assertion_error (__init__ None)
           (finite_array [2%nat] [1 / 4; 1 / 2])
           (finite_array [3%nat] [1; 0; 1]) default_fpstate).
  simpl. discriminate.
Defined.

End ShapeAssertion.

(* ===================================================================== *)
(** ** _preprocess_values *)
(* ===================================================================== *)

Section Preprocess.
Local Open Scope R_scope.

Lemma relabel_zero : relabel (Fin 0) = Fin (-1).
Proof. unfold relabel. simpl. rewrite Reqb_refl. reflexivity. Qed.

Lemma relabel_one : relabel (Fin 1) = Fin 1.
Proof. unfold relabel. simpl. rewrite Reqb_neq by lra. reflexivity. Qed.

Lemma count_true_cons (b : bool) (m : list bool) :
  count_true (b :: m) = ((if b then 1 else 0) + count_true m)%nat.
Proof. unfold count_true. simpl. destruct b; reflexivity. Qed.

(** The two masks never select more elements than there are. *)
Lemma count_masks_le (d : list fnum) :
  (count_true (map (fun v => feqc v 1) d)
   + count_true (map (fun v => feqc v 0) d) <= List.length d)%nat.
Proof.
  induction d as [|v t IH]; simpl; [unfold count_true; simpl; lia |].
  rewrite !count_true_cons.
  destruct (feqc v 1) eqn:E1, (feqc v 0) eqn:E0; try lia.
  apply feqc_true in E1, E0. rewrite E1 in E0. injection E0 as E0. lra.
Qed.

Lemma count_masks_labels (d : list fnum) :
  Forall is_label d ->
  (count_true (map (fun v => feqc v 1) d)
   + count_true (map (fun v => feqc v 0) d) = List.length d)%nat.
Proof.
  induction 1 as [|v t Hv _ IH]; simpl; [reflexivity |].
  rewrite !count_true_cons.
  destruct Hv as [-> | ->]; simpl.
  - rewrite Reqb_refl, Reqb_neq by lra. lia.
  - rewrite Reqb_refl, Reqb_neq by lra. lia.
Qed.

Lemma count_masks_bad (d : list fnum) :
  Exists (fun v => ~ is_label v) d ->
  (count_true (map (fun v => feqc v 1) d)
   + count_true (map (fun v => feqc v 0) d) < List.length d)%nat.
Proof.
  induction 1 as [v t Hv | v t _ IH]; simpl; rewrite !count_true_cons.
  - pose proof (count_masks_le t) as Hle.
    destruct (feqc v 1) eqn:E1.
    { apply feqc_true in E1. exfalso. apply Hv. right. exact E1. }
    destruct (feqc v 0) eqn:E0.
    { apply feqc_true in E0. exfalso. apply Hv. left. exact E0. }
    lia.
  - pose proof (count_masks_le [v]) as Hle. simpl in Hle.
    rewrite !count_true_cons in Hle. unfold count_true in Hle. simpl in Hle.
    lia.
Qed.

(** With rows of one element the masked assignment is a map. *)
Lemma setrows_one (f : fnum -> bool) (d : list fnum) (v : fnum) :
  setrows 1 (map f d) d v = map (fun x => if f x then v else x) d.
Proof.
  induction d as [|x t IH]; simpl; [reflexivity |].
  rewrite IH. destruct (f x); reflexivity.
Qed.

Lemma update_last {A} (h : list A) (x x' : A) :
  update (h ++ [x]) (List.length h) x' = h ++ [x'].
Proof.
  induction h as [|y t IH]; simpl; [reflexivity |]. rewrite IH. reflexivity.
Qed.

Lemma nth_error_last {A} (h : list A) (x : A) :
  nth_error (h ++ [x]) (List.length h) = Some x.
Proof.
  rewrite nth_error_app2 by lia. rewrite Nat.sub_diag. reflexivity.
Qed.

Lemma nth_error_kept {A} (h : list A) (x y : A) (i : nat) :
  nth_error h i = Some y -> nth_error (h ++ [x]) i = Some y.
Proof.
  intros H. rewrite nth_error_app1; [exact H |].
  apply nth_error_Some. rewrite H. discriminate.
Qed.

(** The run of [_preprocess_values] on an array whose first axis is as long
    as the array has elements (shape [(N,)], or [(N,1)]): the copy is
    allocated, the two masks are counted, and the outcome is decided by the
    assertion. *)
Lemma preprocess_values_run self (h : heap) (Y : ref) (y : object) n rest :
  nth_error h Y = Some y ->
  shape y = n :: rest ->
  List.length (data y) = n ->
  wf y ->
  _preprocess_values self Y h
  = if Nat.eqb (count_true (flatten_eq y 1) + count_true (flatten_eq y 0)) n
    then (Ok (List.length h),
          (h ++ [mkObj (dtype_of y)
                   (mkArr (shape y)
                      (map (relabel_as (dtype_of y)) (data y)))])%list)
    else (Raise (AssertionError labels_message), (h ++ [y])%list).
Proof.
  intros HY Hsh Hlen Hwf.
  assert (Hmask : forall c, List.length (flatten_eq y c) = n).
  { intros c. unfold flatten_eq. rewrite length_map. exact Hlen. }
  assert (Hk : n = 0%nat \/ shape_size rest = 1%nat).
  { unfold wf in Hwf. rewrite Hsh, Hlen in Hwf. simpl in Hwf.
    destruct n; [left; reflexivity | right]. nia. }
  unfold _preprocess_values.
  erewrite bind_ok by (unfold load; rewrite HY; reflexivity).
  erewrite bind_ok by (unfold alloc; reflexivity).
  erewrite bind_ok.
  2:{ unfold lift, getitem_mask. rewrite Hsh, Hmask, Nat.eqb_refl.
      reflexivity. }
  erewrite bind_ok.
  2:{ unfold lift, getitem_mask. rewrite Hsh, Hmask, Nat.eqb_refl.
      reflexivity. }
  unfold size. simpl shape. rewrite Hsh. simpl shape_size.
  assert (Heq :
    Nat.eqb (count_true (flatten_eq y 1) * shape_size rest
             + count_true (flatten_eq y 0) * shape_size rest)
            (n * shape_size rest)
    = Nat.eqb (count_true (flatten_eq y 1) + count_true (flatten_eq y 0)) n).
  { destruct Hk as [-> | ->].
    - pose proof (count_masks_le (data y)) as Hle.
      unfold flatten_eq. rewrite Hlen in Hle.
      assert (H1 : count_true (map (fun v => feqc v 1) (data y)) = 0%nat)
        by lia.
      assert (H0 : count_true (map (fun v => feqc v 0) (data y)) = 0%nat)
        by lia.
      rewrite H1, H0. reflexivity.
    - rewrite !Nat.mul_1_r. reflexivity. }
  rewrite Heq.
  destruct (Nat.eqb _ n) eqn:E.
  - erewrite bind_ok by reflexivity.
    erewrite bind_ok by (unfold load; rewrite nth_error_last; reflexivity).
    erewrite bind_ok.
    2:{ unfold lift, setitem_mask_minus_one.
        rewrite Hsh, Hmask, Nat.eqb_refl. reflexivity. }
    erewrite bind_ok by (unfold store; rewrite update_last; reflexivity).
    unfold ret. f_equal. f_equal. f_equal. f_equal. rewrite <- Hsh. f_equal.
    destruct Hk as [Hn | Hk].
    + rewrite Hn in Hlen. apply length_zero_iff_nil in Hlen.
      unfold flatten_eq. rewrite Hlen. reflexivity.
    + rewrite Hk. unfold flatten_eq. apply setrows_one.
  - erewrite bind_fail by reflexivity. reflexivity.
Qed.

(** C3, as stated, fails on the error class: for the one-element array [2]
    the validation is an [assert], so the exception is an [AssertionError],
    which is not a [ValueError]. *)
Lemma preprocess_values_raises_assertion_error :
  fst (_preprocess_values (__init__ None) 0%nat [float_array [1%nat] [2]])
  = Raise (AssertionError labels_message)
  /\ forall msg,
       fst (_preprocess_values (__init__ None) 0%nat
              [float_array [1%nat] [2]])
       <> Raise (ValueError msg).
Proof.
  assert (E : fst (_preprocess_values (__init__ None) 0%nat
                     [float_array [1%nat] [2]])
              = Raise (AssertionError labels_message)).
  { rewrite (preprocess_values_run _ _ _ (float_array [1%nat] [2])
               1%nat []) by reflexivity.
    unfold flatten_eq, count_true. simpl.
    rewrite !Reqb_neq by lra. reflexivity. }
  split; [exact E |]. intros msg. rewrite E. discriminate.
Qed.

(** An array with two columns is outside the method's reach: the mask has
    one entry per element, not one per row, and indexing fails. *)
Example preprocess_values_two_columns :
  fst (_preprocess_values (__init__ None) 0%nat
         [float_array [2%nat; 2%nat] [1; 0; 1; 1]])
  = Raise IndexError.
Proof. reflexivity. Qed.

(** The dtype decides what is stored. In a boolean array -1 is stored as
    [True], so the labels [True, False] come back as [True, True]. *)
Example preprocess_values_bool_labels :
  _preprocess_values (__init__ None) 0%nat
    [mkObj Boolean (finite_array [2%nat] [1; 0])]
  = (Ok 1%nat,
     [mkObj Boolean (finite_array [2%nat] [1; 0]);
      mkObj Boolean (finite_array [2%nat] [1; 1])]).
Proof.
  rewrite (preprocess_values_run _ _ _
             (mkObj Boolean (finite_array [2%nat] [1; 0])) 2%nat [])
    by reflexivity.
  unfold flatten_eq, count_true, relabel_as. simpl.
  rewrite !Reqb_refl, !(Reqb_neq 1 0), !(Reqb_neq 0 1) by lra.
  reflexivity.
Qed.

Lemma relabel_as_signed (d : dtype) (v : fnum) :
  d = Float \/ d = SignedInt -> relabel_as d v = relabel v.
Proof. intros [-> | ->]; reflexivity. Qed.

Lemma relabel_pointwise (d : list fnum) :
  Forall is_label d ->
  Forall2 (fun v w => (v = Fin 0 /\ w = Fin (-1)) \/ (v = Fin 1 /\ w = Fin 1))
    d (map relabel d).
Proof.
  induction 1 as [|v t Hv _ IH]; simpl; constructor; [| exact IH].
  destruct Hv as [-> | ->].
  - left. split; [reflexivity | apply relabel_zero].
  - right. split; [reflexivity | apply relabel_one].
Qed.

(** C3, amended. Let [y] be an array whose first axis is as long as the
    array has elements (shape [(N,)] or [(N,1)]). If its dtype is floating
    point or a signed integer and every element is exactly 0 or 1,
    [_preprocess_values] returns a new array object of the same dtype and
    shape in which every 0 is replaced by -1 and every 1 is kept, and the
    input object is unchanged. Whether the dtype is floating point, a signed
    integer or boolean, if some element is neither 0 nor 1, it raises
    [AssertionError] with the message about outputs in {0, 1}, returns
    nothing, and the input object is unchanged. *)
Theorem preprocess_values_relabels :
  forall self (h : heap) (Y : ref) y n rest,
    nth_error h Y = Some y ->
    shape y = n :: rest ->
    List.length (data y) = n ->
    wf y ->
    (dtype_of y = Float \/ dtype_of y = SignedInt ->
     Forall is_label (data y) ->
       exists y_prep,
         _preprocess_values self Y h
         = (Ok (List.length h), (h ++ [y_prep])%list)
         /\ Y <> List.length h
         /\ nth_error (h ++ [y_prep])%list Y = Some y
         /\ dtype_of y_prep = dtype_of y
         /\ shape y_prep = shape y
         /\ Forall2 (fun v w => (v = Fin 0 /\ w = Fin (-1))
                                \/ (v = Fin 1 /\ w = Fin 1))
              (data y) (data y_prep)
         /\ data y_prep = map relabel (data y)
         /\ Forall (fun v => v = Fin (-1) \/ v = Fin 1) (data y_prep))
    /\ (Exists (fun v => ~ is_label v) (data y) ->
          fst (_preprocess_values self Y h)
          = Raise (AssertionError labels_message)
          /\ nth_error (snd (_preprocess_values self Y h)) Y = Some y).
Proof.
  intros self h Y y n rest HY Hsh Hlen Hwf.
  pose proof (preprocess_values_run self h Y y n rest HY Hsh Hlen Hwf) as Hrun.
  unfold flatten_eq in Hrun.
  split.
  - intros Hd Hlab.
    rewrite (count_masks_labels _ Hlab), Hlen, Nat.eqb_refl in Hrun.
    rewrite (map_ext _ _ (fun v => relabel_as_signed _ v Hd)) in Hrun.
    eexists. split; [exact Hrun |].
    split; [| split; [| split; [| split; [| split; [| split]]]]].
    + intros ->. rewrite (proj2 (nth_error_None h (List.length h))) in HY
        by lia. discriminate.
    + apply nth_error_kept. exact HY.
    + reflexivity.
    + reflexivity.
    + apply relabel_pointwise. exact Hlab.
    + reflexivity.
    + simpl. apply Forall_forall. intros v Hv.
      apply in_map_iff in Hv. destruct Hv as [x [<- Hx]].
      destruct (proj1 (Forall_forall _ _) Hlab x Hx) as [-> | ->].
      * left. apply relabel_zero.
      * right. apply relabel_one.
  - intros Hbad.
    pose proof (count_masks_bad _ Hbad) as Hlt. rewrite Hlen in Hlt.
    rewrite (proj2 (Nat.eqb_neq _ n)) in Hrun by lia.
    rewrite Hrun. simpl. split; [reflexivity |].
    apply nth_error_kept. exact HY.
Qed.

Lemma preprocess_values_relabels_witness :
  exists y_prep,
    _preprocess_values (__init__ None) 0%nat
      [float_array [3%nat; 1%nat] [0; 1; 0]]
    = (Ok 1%nat, [float_array [3%nat; 1%nat] [0; 1; 0]; y_prep])
    /\ 0%nat <> 1%nat
    /\ nth_error [float_array [3%nat; 1%nat] [0; 1; 0]; y_prep] 0%nat
       = Some (float_array [3%nat; 1%nat] [0; 1; 0])
    /\ dtype_of y_prep = Float
    /\ shape y_prep = [3%nat; 1%nat]
    /\ Forall2 (fun v w => (v = Fin 0 /\ w = Fin (-1))
                           \/ (v = Fin 1 /\ w = Fin 1))
         [Fin 0; Fin 1; Fin 0] (data y_prep)
    /\ data y_prep = map relabel [Fin 0; Fin 1; Fin 0]
    /\ Forall (fun v => v = Fin (-1) \/ v = Fin 1) (data y_prep).
Proof.
  apply (proj1 (preprocess_values_relabels (__init__ None)
                  [float_array [3%nat; 1%nat] [0; 1; 0]] 0%nat
                  (float_array [3%nat; 1%nat] [0; 1; 0]) 3%nat [1%nat]
                  eq_refl eq_refl eq_refl eq_refl)).
  - left. reflexivity.
  - simpl. apply Forall_cons; [left; reflexivity |].
    apply Forall_cons; [right; reflexivity |].
    apply Forall_cons; [left; reflexivity | apply Forall_nil].
Defined.

End Preprocess.

(* ===================================================================== *)
(** ** Further properties of the constructor and of moments_match_ep *)
(* ===================================================================== *)

Section MomentMatchingFurther.
Local Open Scope R_scope.
Local Open Scope string_scope.

Lemma std_norm_pdf_R_pos (x : R) : 0 < std_norm_pdf_R x.
Proof.
  unfold std_norm_pdf_R. apply Rmult_lt_0_compat.
  - apply Rinv_0_lt_compat. apply sqrt_2PI_pos.
  - apply exp_pos.
Qed.

(** At least half of the mass lies below any non-negative point. *)
Lemma std_norm_cdf_R_ge_half (x : R) : 0 <= x -> 1 / 2 <= std_norm_cdf_R x.
Proof.
  intros Hx. unfold std_norm_cdf_R.
  pose proof (RiemannInt_P19 (RiemannInt_P14 0 x 0)
                (std_norm_pdf_integrable 0 x) Hx) as H.
  rewrite RiemannInt_P15 in H.
  assert (0 * (x - 0) <= RiemannInt (std_norm_pdf_integrable 0 x)).
  { apply H. intros t _. unfold fct_cte. left. apply std_norm_pdf_R_pos. }
  lra.
Qed.

Lemma bind_scalar_eq {B} r v (k : fnum -> M fpstate B) s :
  r = (v, NoCond) -> bind (scalar_op r) k s = k v s.
Proof. intros ->. reflexivity. Qed.

Ltac scalar_step :=
  erewrite bind_scalar_eq
    by first [ reflexivity
             | apply fdiv_fin; lra
             | apply fsqrt_fin; lra ];
  cbv beta.

(** The sign chosen for a valid label. *)
Lemma sign_of_label (label : fnum) (sg : R) :
  (label = Fin 1 /\ sg = 1) \/ (label = Fin 0 /\ sg = -1) ->
  (if feqc label 1 then ret (Fin 1)
   else if feqc label 0 then ret (Fin (-1))
   else raise (ValueError "bad value for Bernouilli observation (0, 1)"))
  = (ret (Fin sg) : M fpstate fnum).
Proof.
  intros [[-> ->] | [-> ->]]; simpl.
  - rewrite Reqb_refl. reflexivity.
  - rewrite Reqb_neq by lra. rewrite Reqb_refl. reflexivity.
Qed.

Lemma sign_sq (sg : R) : sg = 1 \/ sg = -1 -> sg * sg = 1.
Proof. intros [-> | ->]; lra. Qed.

(** The Probit branch for a positive precision and a cavity mean on the side
    of the label: every denominator is positive, nothing is signalled. *)
Lemma probit_run lc label sg tau v s :
  (label = Fin 1 /\ sg = 1) \/ (label = Fin 0 /\ sg = -1) ->
  0 < tau -> 0 <= sg * v ->
  let q := sqrt (tau * tau + tau) in
  let z := sg * v / q in
  let Z := std_norm_cdf_R z in
  let p := std_norm_pdf_R z in
  moments_match_ep (mkBernoulli Probit lc) label (Fin tau) (Fin v) s
  = (Ok (Fin Z,
         Fin (v / tau + sg * p / (Z * q)),
         Fin (1 / tau - p / ((tau * tau + tau) * Z) * (z + p / Z))), s)
  /\ 0 < q /\ 0 <= z /\ 1 / 2 <= Z /\ 0 < p.
Proof.
  intros Hlab Htau Hv q z Z p.
  assert (Hq : 0 < q) by (apply sqrt_lt_R0; nra).
  assert (Hz : 0 <= z).
  { unfold z, Rdiv. apply Rmult_le_pos; [exact Hv |].
    left. apply Rinv_0_lt_compat. exact Hq. }
  pose proof (std_norm_cdf_R_ge_half z Hz) as HZ. fold Z in HZ.
  pose proof (std_norm_pdf_R_pos z) as Hp. fold p in Hp.
  assert (HZq : 0 < Z * q) by nra.
  assert (Htt : 0 < tau * tau + tau) by nra.
  assert (HtZ : 0 < (tau * tau + tau) * Z) by nra.
  split; [| auto].
  subst p Z z q.
  unfold moments_match_ep. simpl gp_link.
  rewrite (sign_of_label label sg Hlab).
  unfold op2, op1, fsquare. rewrite bind_ret. cbv beta.
  do 5 scalar_step.
  cbn [std_norm_cdf std_norm_pdf].
  do 17 scalar_step.
  reflexivity.
Qed.

(** The Heaviside branch under the same conditions. *)
Lemma heaviside_run lc label sg tau v s :
  (label = Fin 1 /\ sg = 1) \/ (label = Fin 0 /\ sg = -1) ->
  0 < tau -> 0 <= sg * v ->
  let q := sqrt tau in
  let a := sg * v / q in
  let Z := std_norm_cdf_R a in
  let N := std_norm_pdf_R a in
  moments_match_ep (mkBernoulli Heaviside lc) label (Fin tau) (Fin v) s
  = (Ok (Fin Z,
         Fin (v / tau + sg * N / Z / q),
         Fin ((1 - a * N / Z - N / Z * (N / Z)) / tau)), s)
  /\ 0 < q /\ 0 <= a /\ 1 / 2 <= Z /\ 0 < N.
Proof.
  intros Hlab Htau Hv q a Z N.
  assert (Hq : 0 < q) by (apply sqrt_lt_R0; lra).
  assert (Ha : 0 <= a).
  { unfold a, Rdiv. apply Rmult_le_pos; [exact Hv |].
    left. apply Rinv_0_lt_compat. exact Hq. }
  pose proof (std_norm_cdf_R_ge_half a Ha) as HZ. fold Z in HZ.
  pose proof (std_norm_pdf_R_pos a) as HN. fold N in HN.
  split; [| auto].
  subst N Z a q.
  unfold moments_match_ep. simpl gp_link.
  rewrite (sign_of_label label sg Hlab).
  unfold op2, op1, fsquare. rewrite bind_ret. cbv beta.
  do 3 scalar_step.
  cbn [std_norm_cdf std_norm_pdf].
  do 13 scalar_step.
  reflexivity.
Qed.

(** X1. The constructor defaults to the Probit link, and the flag
    [log_concave] it sets tells whether closed-form moment matching is
    available: for a valid label, a positive precision and a cavity mean on
    the side of the label, [moments_match_ep] returns a result exactly when
    the flag is set. *)
Theorem log_concave_marks_supported_links :
  gp_link (__init__ None) = Probit
  /\ log_concave (__init__ None) = true
  /\ forall link label sg tau v s,
       (label = Fin 1 /\ sg = 1) \/ (label = Fin 0 /\ sg = -1) ->
       0 < tau -> 0 <= sg * v ->
       is_ok (fst (moments_match_ep (__init__ link) label (Fin tau) (Fin v) s))
       = log_concave (__init__ link).
Proof.
  split; [reflexivity |]. split; [reflexivity |].
  intros link label sg tau v s Hlab Htau Hv.
  destruct link as [[| | name] |]; unfold __init__; cbn [log_concave].
  - destruct (probit_run true label sg tau v s Hlab Htau Hv) as [-> _].
    reflexivity.
  - destruct (heaviside_run true label sg tau v s Hlab Htau Hv) as [-> _].
    reflexivity.
  - apply moments_match_ep_other_link_fails.
  - destruct (probit_run true label sg tau v s Hlab Htau Hv) as [-> _].
    reflexivity.
Qed.

Lemma log_concave_marks_supported_links_witness :
  is_ok (fst (moments_match_ep (__init__ (Some Heaviside))
                (Fin 0) (Fin 2) (Fin (-1)) default_fpstate))
  = log_concave (__init__ (Some Heaviside)).
Proof.
  apply (proj2 (proj2 log_concave_marks_supported_links)
           (Some Heaviside) (Fin 0) (-1) 2 (-1) default_fpstate).
  - right. split; reflexivity.
  - lra.
  - lra.
Defined.

(** X2. Whatever the link function, the precision and the cavity mean, a
    label that is neither 0 nor 1 (another number, an infinity, not-a-number)
    makes [moments_match_ep] raise the [ValueError] for a bad observation,
    before the link is looked at; the settings are untouched. *)
Theorem moments_match_ep_rejects_other_labels :
  forall self label tau_i v_i s,
    label <> Fin 1 -> label <> Fin 0 ->
    moments_match_ep self label tau_i v_i s
    = (Raise (ValueError "bad value for Bernouilli observation (0, 1)"), s).
Proof.
  intros self label tau_i v_i s H1 H0.
  apply moments_match_ep_bad_label.
  - destruct (feqc label 1) eqn:E; [| reflexivity].
    apply feqc_true in E. contradiction.
  - destruct (feqc label 0) eqn:E; [| reflexivity].
    apply feqc_true in E. contradiction.
Qed.

Lemma moments_match_ep_rejects_other_labels_witness :
  moments_match_ep (__init__ (Some (OtherLink None)))
    NaN (Fin 1) (Fin 0) default_fpstate
  = (Raise (ValueError "bad value for Bernouilli observation (0, 1)"),
     default_fpstate).
Proof.
  apply (moments_match_ep_rejects_other_labels
           (__init__ (Some (OtherLink None))) NaN (Fin 1) (Fin 0)
           default_fpstate); discriminate.
Defined.

(** X3. With the Probit link, a positive precision and a cavity mean on the
    side of the label (non-negative for label 1, non-positive for label 0),
    [moments_match_ep] returns finite values under every error setting:
    [Z_hat] is the normal distribution function at
    [sign*v_i/sqrt(tau_i^2+tau_i)] and at least 1/2, [mu_hat] lies strictly
    on the label's side of the cavity mean [v_i/tau_i], and [sigma2_hat] is
    strictly below the cavity variance [1/tau_i]. *)
Theorem moments_match_ep_probit_towards_label :
  forall lc label sg tau v s,
    (label = Fin 1 /\ sg = 1) \/ (label = Fin 0 /\ sg = -1) ->
    0 < tau -> 0 <= sg * v ->
    exists Z mu sig,
      moments_match_ep (mkBernoulli Probit lc) label (Fin tau) (Fin v) s
      = (Ok (Fin Z, Fin mu, Fin sig), s)
      /\ Z = std_norm_cdf_R (sg * v / sqrt (tau * tau + tau))
      /\ 1 / 2 <= Z
      /\ 0 < sg * (mu - v / tau)
      /\ sig < 1 / tau.
Proof.
  intros lc label sg tau v s Hlab Htau Hv.
  destruct (probit_run lc label sg tau v s Hlab Htau Hv)
    as [Hrun [Hq [Hz [HZ Hp]]]].
  cbv zeta in Hrun.
  set (q := sqrt (tau * tau + tau)) in *.
  set (z := sg * v / q) in *.
  set (Z := std_norm_cdf_R z) in *.
  set (p := std_norm_pdf_R z) in *.
  exists Z, (v / tau + sg * p / (Z * q)),
    (1 / tau - p / ((tau * tau + tau) * Z) * (z + p / Z)).
  split; [exact Hrun |]. split; [reflexivity |]. split; [exact HZ |].
  assert (Hsg : sg * sg = 1) by (apply sign_sq; tauto).
  assert (HZq : 0 < Z * q) by nra.
  assert (Htt : 0 < tau * tau + tau) by nra.
  assert (HtZ : 0 < (tau * tau + tau) * Z) by nra.
  split.
  - replace (sg * (v / tau + sg * p / (Z * q) - v / tau))
      with ((sg * sg) * (p / (Z * q))) by (field; lra).
    rewrite Hsg, Rmult_1_l. apply Rdiv_lt_0_compat; lra.
  - assert (0 < p / ((tau * tau + tau) * Z)) by (apply Rdiv_lt_0_compat; lra).
    assert (0 < p / Z) by (apply Rdiv_lt_0_compat; lra).
    nra.
Qed.

Lemma moments_match_ep_probit_towards_label_witness :
  exists Z mu sig,
    moments_match_ep (mkBernoulli Probit true) (Fin 1) (Fin 2) (Fin 3)
      default_fpstate
    = (Ok (Fin Z, Fin mu, Fin sig), default_fpstate)
    /\ Z = std_norm_cdf_R (1 * 3 / sqrt (2 * 2 + 2))
    /\ 1 / 2 <= Z
    /\ 0 < 1 * (mu - 3 / 2)
    /\ sig < 1 / 2.
Proof.
  apply (moments_match_ep_probit_towards_label true (Fin 1) 1 2 3
           default_fpstate).
  - left. split; reflexivity.
  - lra.
  - lra.
Defined.

(** X4. The same for the Heaviside link: [Z_hat] is the normal distribution
    function at [sign*v_i/sqrt(tau_i)] and at least 1/2, [mu_hat] lies
    strictly on the label's side of [v_i/tau_i], and [sigma2_hat] is strictly
    below [1/tau_i]. *)
Theorem moments_match_ep_heaviside_towards_label :
  forall lc label sg tau v s,
    (label = Fin 1 /\ sg = 1) \/ (label = Fin 0 /\ sg = -1) ->
    0 < tau -> 0 <= sg * v ->
    exists Z mu sig,
      moments_match_ep (mkBernoulli Heaviside lc) label (Fin tau) (Fin v) s
      = (Ok (Fin Z, Fin mu, Fin sig), s)
      /\ Z = std_norm_cdf_R (sg * v / sqrt tau)
      /\ 1 / 2 <= Z
      /\ 0 < sg * (mu - v / tau)
      /\ sig < 1 / tau.
Proof.
  intros lc label sg tau v s Hlab Htau Hv.
  destruct (heaviside_run lc label sg tau v s Hlab Htau Hv)
    as [Hrun [Hq [Ha [HZ HN]]]].
  cbv zeta in Hrun.
  set (q := sqrt tau) in *.
  set (a := sg * v / q) in *.
  set (Z := std_norm_cdf_R a) in *.
  set (N := std_norm_pdf_R a) in *.
  exists Z, (v / tau + sg * N / Z / q),
    ((1 - a * N / Z - N / Z * (N / Z)) / tau).
  split; [exact Hrun |]. split; [reflexivity |]. split; [exact HZ |].
  assert (Hsg : sg * sg = 1) by (apply sign_sq; tauto).
  assert (HNZ : 0 < N / Z) by (apply Rdiv_lt_0_compat; lra).
  split.
  - replace (sg * (v / tau + sg * N / Z / q - v / tau))
      with ((sg * sg) * (N / Z / q)) by (field; lra).
    rewrite Hsg, Rmult_1_l. apply Rdiv_lt_0_compat; lra.
  - assert (Hpos : 0 <= a * N / Z).
    { unfold Rdiv. rewrite Rmult_assoc. apply Rmult_le_pos; [exact Ha |].
      fold (N / Z). lra. }
    assert (Hsq : 0 < N / Z * (N / Z)) by nra.
    assert (Hit : 0 < / tau) by (apply Rinv_0_lt_compat; exact Htau).
    unfold Rdiv in *. nra.
Qed.

Lemma moments_match_ep_heaviside_towards_label_witness :
  exists Z mu sig,
    moments_match_ep (mkBernoulli Heaviside true) (Fin 0) (Fin 2) (Fin (-3))
      default_fpstate
    = (Ok (Fin Z, Fin mu, Fin sig), default_fpstate)
    /\ Z = std_norm_cdf_R (-1 * -3 / sqrt 2)
    /\ 1 / 2 <= Z
    /\ 0 < -1 * (mu - -3 / 2)
    /\ sig < 1 / 2.
Proof.
  apply (moments_match_ep_heaviside_towards_label true (Fin 0) (-1) 2 (-3)
           default_fpstate).
  - right. split; reflexivity.
  - lra.
  - lra.
Defined.

End MomentMatchingFurther.

(* ===================================================================== *)
(** ** Further properties of pdf_link and logpdf_link *)
(* ===================================================================== *)

Section LikelihoodFurther.
Local Open Scope R_scope.

Lemma select_app {A} (c1 c2 : list bool) (a1 a2 b1 b2 : list A) :
  List.length a1 = List.length c1 -> List.length b1 = List.length c1 ->
  select (c1 ++ c2) (a1 ++ a2) (b1 ++ b2)
  = (select c1 a1 b1 ++ select c2 a2 b2)%list.
Proof.
  revert a1 b1. induction c1 as [|ci c1 IH]; intros [|ai a1] [|bi b1]; simpl;
    intros Ha Hb; try discriminate; [reflexivity |].
  rewrite IH by lia. reflexivity.
Qed.

Lemma select_length {A} (c : list bool) (a b : list A) :
  List.length a = List.length c -> List.length b = List.length c ->
  List.length (select c a b) = List.length c.
Proof.
  revert a b. induction c as [|ci c IH]; intros [|ai a] [|bi b]; simpl;
    intros Ha Hb; try discriminate; [reflexivity |].
  rewrite IH by lia. reflexivity.
Qed.

Lemma sumR_app (a b : list R) : sumR (a ++ b) = sumR a + sumR b.
Proof. induction a as [|x a IH]; simpl; [lra | rewrite IH; lra]. Qed.

Lemma prodR_app (a b : list R) : prodR (a ++ b) = prodR a * prodR b.
Proof. induction a as [|x a IH]; simpl; [lra | rewrite IH; lra]. Qed.

Lemma unit_open_app a b : unit_open (a ++ b) <-> unit_open a /\ unit_open b.
Proof. unfold unit_open. apply Forall_app. Qed.

Lemma unit_open_cons l t : unit_open (l :: t) <-> 0 < l < 1 /\ unit_open t.
Proof.
  unfold unit_open. split.
  - intros H. inversion H. auto.
  - intros [H1 H2]. constructor; auto.
Qed.

Lemma unit_closed_In ls l : unit_closed ls -> In l ls -> 0 <= l <= 1.
Proof. intros H. apply (proj1 (Forall_forall _ _) H). Qed.

Lemma exp_sum_ln_is_product (ts : list R) :
  Forall (fun t => 0 < t) ts -> exp (sumR (map ln ts)) = prodR ts.
Proof.
  induction 1 as [|t ts Ht _ IH]; simpl.
  - apply exp_0.
  - rewrite exp_plus, exp_ln, IH by exact Ht. reflexivity.
Qed.

Lemma pdf_terms_open ys ls :
  unit_open ls -> Forall (fun t => 0 < t < 1) (pdf_terms ys ls).
Proof.
  intros Hls. apply Forall_forall. intros r Hin. unfold pdf_terms in Hin.
  apply In_select in Hin. destruct Hin as [Hin | Hin].
  - exact (unit_open_In _ _ Hls Hin).
  - apply in_map_iff in Hin. destruct Hin as [l [<- Hl]].
    apply (unit_open_In _ _ Hls) in Hl. lra.
Qed.

Lemma prodR_unit (ts : list R) :
  Forall (fun t => 0 < t < 1) ts -> 0 < prodR ts <= 1.
Proof.
  induction 1 as [|t ts Ht _ IH]; simpl; [lra | nra].
Qed.

Lemma logpdf_terms_neg ys ls :
  unit_open ls -> Forall (fun t => t < 0) (logpdf_terms ys ls).
Proof.
  intros Hls. apply Forall_forall. intros r Hin. unfold logpdf_terms in Hin.
  apply In_select in Hin.
  assert (Hln : forall x, 0 < x < 1 -> ln x < 0).
  { intros x Hx. rewrite <- ln_1. apply ln_increasing; lra. }
  destruct Hin as [Hin | Hin]; apply in_map_iff in Hin.
  - destruct Hin as [l [<- Hl]]. apply Hln. exact (unit_open_In _ _ Hls Hl).
  - destruct Hin as [m [<- Hm]]. apply in_map_iff in Hm.
    destruct Hm as [l [<- Hl]]. apply (unit_open_In _ _ Hls) in Hl.
    apply Hln. lra.
Qed.

Lemma sumR_neg ts : Forall (fun t => t < 0) ts -> sumR ts <= 0.
Proof. induction 1 as [|t ts Ht _ IH]; simpl; lra. Qed.

(** [pdf_link] as the product of the selected probabilities. *)
Lemma pdf_link_product self sh ls y s :
  atleast_1d_shape sh = atleast_1d_shape (shape y) ->
  unit_open ls ->
  pdf_link self (finite_array sh ls) y s
  = (Ok (Fin (prodR (pdf_terms (data y) ls))), s).
Proof.
  intros Hsh Hls. rewrite pdf_link_fin by assumption.
  rewrite exp_sum_ln_is_product; [reflexivity |].
  eapply Forall_impl; [| apply pdf_terms_open; exact Hls].
  simpl. intros; lra.
Qed.

(** X5. For link values strictly between 0 and 1 and labels of a matching
    shape, under every error setting: [pdf_link] returns the product of the
    selected probabilities ([link_f] where the label is true as a number,
    [1 - link_f] elsewhere), a number in (0, 1]; [logpdf_link] returns the sum
    of the selected logarithms, a number that is at most 0. (Exact reals.) *)
Theorem likelihood_is_a_probability :
  forall self sh ls y s,
    atleast_1d_shape sh = atleast_1d_shape (shape y) ->
    unit_open ls ->
    exists p ll,
      pdf_link self (finite_array sh ls) y s = (Ok (Fin p), s)
      /\ p = prodR (pdf_terms (data y) ls)
      /\ 0 < p <= 1
      /\ logpdf_link self (finite_array sh ls) y s = (Ok (Fin ll), s)
      /\ ll = sumR (logpdf_terms (data y) ls)
      /\ ll <= 0.
Proof.
  intros self sh ls y s Hsh Hls.
  exists (prodR (pdf_terms (data y) ls)), (sumR (logpdf_terms (data y) ls)).
  split; [apply pdf_link_product; assumption |].
  split; [reflexivity |].
  split; [apply prodR_unit, pdf_terms_open; exact Hls |].
  split; [apply logpdf_link_fin; assumption |].
  split; [reflexivity |].
  apply sumR_neg, logpdf_terms_neg. exact Hls.
Qed.

Lemma likelihood_is_a_probability_witness :
  exists p ll,
    pdf_link (__init__ None) (finite_array [2%nat] [1 / 4; 1 / 2])
      (vector [Fin 1; Fin 0]) default_fpstate
    = (Ok (Fin p), default_fpstate)
    /\ p = prodR (pdf_terms [Fin 1; Fin 0] [1 / 4; 1 / 2])
    /\ 0 < p <= 1
    /\ logpdf_link (__init__ None) (finite_array [2%nat] [1 / 4; 1 / 2])
         (vector [Fin 1; Fin 0]) default_fpstate
       = (Ok (Fin ll), default_fpstate)
    /\ ll = sumR (logpdf_terms [Fin 1; Fin 0] [1 / 4; 1 / 2])
    /\ ll <= 0.
Proof.
  apply (likelihood_is_a_probability (__init__ None) [2%nat] [1 / 4; 1 / 2]
           (vector [Fin 1; Fin 0]) default_fpstate).
  - reflexivity.
  - repeat constructor; lra.
Defined.

Lemma pdf_terms_app ya yb la lb :
  List.length ya = List.length la ->
  pdf_terms (ya ++ yb) (la ++ lb) = (pdf_terms ya la ++ pdf_terms yb lb)%list.
Proof.
  intros H. unfold pdf_terms. rewrite !map_app.
  apply select_app; rewrite !length_map; lia.
Qed.

Lemma logpdf_terms_app ya yb la lb :
  List.length ya = List.length la ->
  logpdf_terms (ya ++ yb) (la ++ lb)
  = (logpdf_terms ya la ++ logpdf_terms yb lb)%list.
Proof.
  intros H. unfold logpdf_terms. rewrite !map_app.
  apply select_app; rewrite !length_map; lia.
Qed.

Lemma vector_fin (ls : list R) :
  vector (map Fin ls) = finite_array [List.length (map Fin ls)] ls.
Proof. reflexivity. Qed.

Lemma vector_shapes_agree (ls : list R) (ys : list fnum) :
  List.length ys = List.length ls ->
  atleast_1d_shape [List.length (map Fin ls)]
  = atleast_1d_shape (shape (vector ys)).
Proof. intros H. simpl. rewrite length_map, H. reflexivity. Qed.

(** X6. The likelihood factorises over observations: for two batches of
    one-dimensional arrays with link values in (0,1) (labels as long as the
    link values), [pdf_link] of the concatenated batch is the product of the
    two likelihoods and [logpdf_link] of it is the sum of the two
    log-likelihoods. (Exact reals.) *)
Theorem likelihood_factorises :
  forall self la lb ya yb s,
    List.length ya = List.length la ->
    List.length yb = List.length lb ->
    unit_open la -> unit_open lb ->
    exists pa pb lla llb,
      pdf_link self (vector (map Fin la)) (vector ya) s = (Ok (Fin pa), s)
      /\ pdf_link self (vector (map Fin lb)) (vector yb) s = (Ok (Fin pb), s)
      /\ pdf_link self (vector (map Fin (la ++ lb))) (vector (ya ++ yb)) s
         = (Ok (Fin (pa * pb)), s)
      /\ logpdf_link self (vector (map Fin la)) (vector ya) s
         = (Ok (Fin lla), s)
      /\ logpdf_link self (vector (map Fin lb)) (vector yb) s
         = (Ok (Fin llb), s)
      /\ logpdf_link self (vector (map Fin (la ++ lb))) (vector (ya ++ yb)) s
         = (Ok (Fin (lla + llb)), s).
Proof.
  intros self la lb ya yb s Ha Hb Hla Hlb.
  assert (Hab : unit_open (la ++ lb)) by (apply unit_open_app; auto).
  assert (Hlen : List.length (ya ++ yb) = List.length (la ++ lb))
    by (rewrite !length_app; lia).
  exists (prodR (pdf_terms ya la)), (prodR (pdf_terms yb lb)),
    (sumR (logpdf_terms ya la)), (sumR (logpdf_terms yb lb)).
  rewrite !vector_fin.
  repeat split.
  - apply pdf_link_product; [apply vector_shapes_agree |]; assumption.
  - apply pdf_link_product; [apply vector_shapes_agree |]; assumption.
  - rewrite <- prodR_app, <- pdf_terms_app by exact Ha.
    apply pdf_link_product; [apply vector_shapes_agree |]; assumption.
  - apply logpdf_link_fin; [apply vector_shapes_agree |]; assumption.
  - apply logpdf_link_fin; [apply vector_shapes_agree |]; assumption.
  - rewrite <- sumR_app, <- logpdf_terms_app by exact Ha.
    apply logpdf_link_fin; [apply vector_shapes_agree |]; assumption.
Qed.

Lemma likelihood_factorises_witness :
  exists pa pb lla llb,
    pdf_link (__init__ None) (vector (map Fin [1 / 4])) (vector [Fin 1])
      default_fpstate = (Ok (Fin pa), default_fpstate)
    /\ pdf_link (__init__ None) (vector (map Fin [1 / 2; 1 / 3]))
         (vector [Fin 0; Fin 1]) default_fpstate
       = (Ok (Fin pb), default_fpstate)
    /\ pdf_link (__init__ None)
         (vector (map Fin ([1 / 4] ++ [1 / 2; 1 / 3])))
         (vector ([Fin 1] ++ [Fin 0; Fin 1])) default_fpstate
       = (Ok (Fin (pa * pb)), default_fpstate)
    /\ logpdf_link (__init__ None) (vector (map Fin [1 / 4])) (vector [Fin 1])
         default_fpstate = (Ok (Fin lla), default_fpstate)
    /\ logpdf_link (__init__ None) (vector (map Fin [1 / 2; 1 / 3]))
         (vector [Fin 0; Fin 1]) default_fpstate
       = (Ok (Fin llb), default_fpstate)
    /\ logpdf_link (__init__ None)
         (vector (map Fin ([1 / 4] ++ [1 / 2; 1 / 3])))
         (vector ([Fin 1] ++ [Fin 0; Fin 1])) default_fpstate
       = (Ok (Fin (lla + llb)), default_fpstate).
Proof.
  apply (likelihood_factorises (__init__ None) [1 / 4] [1 / 2; 1 / 3]
           [Fin 1] [Fin 0; Fin 1] default_fpstate).
  - reflexivity.
  - reflexivity.
  - repeat constructor; lra.
  - repeat constructor; lra.
Defined.

End LikelihoodFurther.

(* ===================================================================== *)
(** ** Link values of exactly 0 or 1: what is suppressed and what is not *)
(* ===================================================================== *)

Section ExactZero.
Local Open Scope R_scope.

(** An elementwise function that signals at most divide-by-zero returns
    while the divide report is suppressed, whatever the other modes are. *)
Lemma ufunc1_divide_suppressed (f : fnum -> fnum * fpcond) a s :
  (forall v, In v (data a) -> snd (f v) <> InvalidCond) ->
  ufunc1 f a (set_divide ModeIgnore s)
  = (Ok (mkArr (shape a) (map (fun v => fst (f v)) (data a))),
     set_divide ModeIgnore s).
Proof.
  intros H. unfold ufunc1. rewrite report_all_set_divide_ignore.
  - rewrite map_map. reflexivity.
  - apply not_true_is_false. intros E.
    apply existsb_exists in E. destruct E as [c [Hin Hc]].
    apply in_map_iff in Hin. destruct Hin as [r [<- Hin]].
    apply in_map_iff in Hin. destruct Hin as [v [<- Hv]].
    specialize (H v Hv). destruct (snd (f v)); try discriminate. congruence.
Qed.

Lemma flog_closed (t : R) :
  0 <= t ->
  flog (Fin t) = (log_or_ninf t, if Reqb t 0 then DivideCond else NoCond).
Proof.
  intros Ht. unfold log_or_ninf. simpl.
  destruct (Reqb t 0) eqn:E; [reflexivity |].
  rewrite Rltb_false by lra. reflexivity.
Qed.

Lemma fdiv_quotient (c x : R) :
  c <> 0 ->
  fdiv (Fin c) (Fin x)
  = (quotient_or_inf c x, if Reqb x 0 then DivideCond else NoCond).
Proof.
  intros Hc. unfold quotient_or_inf. simpl.
  destruct (Reqb x 0); [| reflexivity].
  rewrite Reqb_neq by exact Hc. reflexivity.
Qed.

Lemma ufunc1_flog_suppressed sh ts s :
  Forall (fun t => 0 <= t) ts ->
  ufunc1 flog (finite_array sh ts) (set_divide ModeIgnore s)
  = (Ok (mkArr sh (map log_or_ninf ts)), set_divide ModeIgnore s).
Proof.
  intros H. rewrite ufunc1_divide_suppressed.
  - unfold finite_array. simpl. rewrite map_map. do 3 f_equal.
    apply map_ext_in. intros t Ht.
    rewrite flog_closed by (apply (proj1 (Forall_forall _ _) H); exact Ht).
    reflexivity.
  - intros v Hv. unfold finite_array in Hv. simpl in Hv.
    apply in_map_iff in Hv. destruct Hv as [t [<- Ht]].
    rewrite flog_closed by (apply (proj1 (Forall_forall _ _) H); exact Ht).
    simpl. destruct (Reqb t 0); discriminate.
Qed.

Lemma ufunc1_quotient_suppressed (c : R) sh xs s :
  c <> 0 ->
  ufunc1 (fdiv (Fin c)) (finite_array sh xs) (set_divide ModeIgnore s)
  = (Ok (mkArr sh (map (quotient_or_inf c) xs)), set_divide ModeIgnore s).
Proof.
  intros Hc. rewrite ufunc1_divide_suppressed.
  - unfold finite_array. cbn [data shape]. rewrite map_map. do 3 f_equal.
    apply map_ext. intros x. rewrite fdiv_quotient by exact Hc. reflexivity.
  - intros v Hv. unfold finite_array in Hv. cbn [data] in Hv.
    apply in_map_iff in Hv. destruct Hv as [x [<- _]].
    rewrite fdiv_quotient by exact Hc. cbn [snd].
    destruct (Reqb x 0); discriminate.
Qed.

Lemma sum_from_cons acc x l :
  sum_from acc (x :: l)
  = (fst (sum_from (fst (fadd acc x)) l),
     snd (fadd acc x) :: snd (sum_from (fst (fadd acc x)) l)).
Proof. reflexivity. Qed.

Lemma fadd_log_or_ninf acc t :
  (acc = NInf \/ is_fin acc) ->
  fadd acc (log_or_ninf t) = (add_log acc t, NoCond)
  /\ (add_log acc t = NInf \/ is_fin (add_log acc t)).
Proof.
  unfold log_or_ninf, add_log.
  intros [-> | [a ->]]; destruct (Reqb t 0); simpl; split; auto;
    right; eexists; reflexivity.
Qed.

(** Summing reals and minus infinities signals nothing. *)
Lemma sum_from_log_or_ninf (ts : list R) :
  forall acc,
    (acc = NInf \/ is_fin acc) ->
    snd (sum_from acc (map log_or_ninf ts)) = map (fun _ => NoCond) ts
    /\ fst (sum_from acc (map log_or_ninf ts))
       = match acc with
         | Fin a => if existsb (fun t => Reqb t 0) ts then NInf
                    else Fin (a + sumR (map ln ts))
         | other => other
         end.
Proof.
  induction ts as [|t ts IH]; intros acc Hacc.
  - simpl. split; [reflexivity |].
    destruct Hacc as [-> | [a ->]]; [reflexivity |]. f_equal. lra.
  - cbn [map]. rewrite sum_from_cons.
    destruct (fadd_log_or_ninf acc t Hacc) as [E Hnext].
    rewrite E. cbn [fst snd].
    destruct (IH _ Hnext) as [H1 H2]. rewrite H1, H2.
    split; [reflexivity |].
    unfold add_log. destruct Hacc as [-> | [a ->]]; [reflexivity |].
    cbn [existsb sumR map fold_right]. destruct (Reqb t 0); [reflexivity |].
    cbn [orb]. destruct (existsb _ ts); [reflexivity |].
    f_equal. fold (sumR (map ln ts)). lra.
Qed.

Lemma np_sum_log_or_ninf sh ts s :
  np_sum (mkArr sh (map log_or_ninf ts)) s = (Ok (total_log ts), s).
Proof.
  unfold np_sum. simpl.
  destruct (sum_from_log_or_ninf ts (Fin 0)) as [H1 H2];
    [right; eexists; reflexivity |].
  rewrite H1, H2. rewrite report_all_nocond.
  unfold total_log. destruct (existsb _ ts); [reflexivity |].
  do 3 f_equal. lra.
Qed.

(** X7. For link values in the closed interval [0,1] and labels of a
    matching shape, [logpdf_link] never raises, whatever the error settings
    on entry (divide mode ['raise'] included), and leaves them as found: it
    returns minus infinity if a selected probability ([link_f] where the
    label equals 1, [1 - link_f] elsewhere) is exactly 0, and the sum of their
    logarithms otherwise. (Exact reals.) *)
Theorem logpdf_link_on_closed_interval :
  forall self sh ls y s,
    atleast_1d_shape sh = atleast_1d_shape (shape y) ->
    unit_closed ls ->
    logpdf_link self (finite_array sh ls) y s
    = (Ok (if existsb (fun t => Reqb t 0) (logpdf_probs (data y) ls)
           then NInf
           else Fin (sumR (map ln (logpdf_probs (data y) ls)))), s).
Proof.
  intros self sh ls y s Hsh Hls. rewrite logpdf_link_arrays.
  erewrite bind_ok by (apply assert_same_shape_ok; exact Hsh).
  erewrite bind_ok by (unfold seterr_divide; reflexivity).
  erewrite bind_ok.
  2:{ apply ufunc1_flog_suppressed. eapply Forall_impl; [| exact Hls].
      simpl. intros; lra. }
  erewrite bind_ok
    by (apply (ufunc1_fin _ (fun l => 1 - l)); intros; apply fsub_fin).
  erewrite bind_ok.
  2:{ apply ufunc1_flog_suppressed. apply Forall_forall. intros t Ht.
      apply in_map_iff in Ht. destruct Ht as [l [<- Hl]].
      apply (unit_closed_In _ _ Hls) in Hl. lra. }
  erewrite bind_ok by (unfold seterr_all; reflexivity).
  unfold np_where. simpl data. rewrite select_map.
  rewrite np_sum_log_or_ninf. reflexivity.
Qed.

Lemma logpdf_link_on_closed_interval_witness :
  logpdf_link (__init__ None) (finite_array [2%nat] [0; 1 / 2])
    (vector [Fin 1; Fin 0]) divide_raises
  = (Ok (if existsb (fun t => Reqb t 0)
              (logpdf_probs [Fin 1; Fin 0] [0; 1 / 2])
         then NInf
         else Fin (sumR (map ln (logpdf_probs [Fin 1; Fin 0] [0; 1 / 2])))),
     divide_raises).
Proof.
  apply (logpdf_link_on_closed_interval (__init__ None) [2%nat] [0; 1 / 2]
           (vector [Fin 1; Fin 0]) divide_raises).
  - reflexivity.
  - repeat constructor; lra.
Defined.

(** Logarithms of probabilities signal divide-by-zero at exactly 0 and
    nothing else. *)
Lemma flog_conditions ts :
  Forall (fun t => 0 <= t) ts ->
  existsb is_divide (map snd (map flog (map Fin ts)))
  = existsb (fun t => Reqb t 0) ts
  /\ existsb is_invalid (map snd (map flog (map Fin ts))) = false.
Proof.
  induction 1 as [|t ts Ht _ [IHd IHi]]; cbn [map existsb].
  - split; reflexivity.
  - rewrite IHd, IHi, flog_closed by exact Ht. cbn [snd].
    destruct (Reqb t 0); split; reflexivity.
Qed.

Lemma pdf_terms_closed ys ls :
  unit_closed ls -> Forall (fun t => 0 <= t) (pdf_terms ys ls).
Proof.
  intros Hls. apply Forall_forall. intros r Hin. unfold pdf_terms in Hin.
  apply In_select in Hin. destruct Hin as [Hin | Hin].
  - apply (unit_closed_In _ _ Hls) in Hin. lra.
  - apply in_map_iff in Hin. destruct Hin as [l [<- Hl]].
    apply (unit_closed_In _ _ Hls) in Hl. lra.
Qed.

(** X8. [pdf_link] does not suppress the divide report. For numpy arrays of
    link values in the closed interval [0,1]: if no selected probability is
    exactly 0, it returns their product; if one is, the outcome is decided
    by the divide mode. Modes ['ignore'] and ['print'] return 0; ['warn']
    returns 0 unless the warning filter raises the [RuntimeWarning];
    ['raise'] raises [FloatingPointError]; ['call'] and ['log'] raise
    [NameError] when no handler is installed, raise what the handler raises,
    and return 0 when the handler returns. The settings are never changed.
    (Exact reals.) *)
Theorem pdf_link_on_closed_interval :
  forall self sh ls y s,
    atleast_1d_shape sh = atleast_1d_shape (shape y) ->
    unit_closed ls ->
    pdf_link self (finite_array sh ls) y s
    = if existsb (fun t => Reqb t 0) (pdf_terms (data y) ls)
      then match divide s with
           | ModeIgnore | ModePrint => (Ok (Fin 0), s)
           | ModeWarn =>
               if warnings_raise s then (Raise RuntimeWarning, s)
               else (Ok (Fin 0), s)
           | ModeRaise => (Raise FloatingPointError, s)
           | ModeCall =>
               match errcall s with
               | NoHandler => (Raise (NameError "errcall"%string), s)
               | Handler (Some e) _ => (Raise e, s)
               | Handler None _ => (Ok (Fin 0), s)
               end
           | ModeLog =>
               match errcall s with
               | NoHandler => (Raise (NameError "errcall"%string), s)
               | Handler _ (Some e) => (Raise e, s)
               | Handler _ None => (Ok (Fin 0), s)
               end
           end
      else (Ok (Fin (prodR (pdf_terms (data y) ls))), s).
Proof.
  intros self sh ls y s Hsh Hls. rewrite pdf_link_arrays.
  pose proof (pdf_terms_closed (data y) ls Hls) as Hcl.
  erewrite bind_ok by (apply assert_same_shape_ok; exact Hsh).
  erewrite bind_ok
    by (apply (ufunc1_fin _ (fun l => 1 - l)); intros; apply fsub_fin).
  rewrite np_where_fin. fold (pdf_terms (data y) ls).
  set (sh' := broadcast_shape _ _).
  assert (Hlog : ufunc1 flog (finite_array sh' (pdf_terms (data y) ls)) s
           = match (if existsb (fun t => Reqb t 0) (pdf_terms (data y) ls)
                    then report (divide s) s else None) with
             | Some e => (Raise e, s)
             | None =>
                 (Ok (mkArr sh' (map log_or_ninf (pdf_terms (data y) ls))), s)
             end).
  { unfold ufunc1, finite_array, report_all. cbn [data shape].
    destruct (flog_conditions _ Hcl) as [-> ->].
    destruct (if existsb _ _ then _ else _); [reflexivity |].
    rewrite !map_map. do 3 f_equal. apply map_ext_in. intros t Ht.
    rewrite flog_closed by (apply (proj1 (Forall_forall _ _) Hcl); exact Ht).
    reflexivity. }
  assert (Hpos :
    existsb (fun t => Reqb t 0) (pdf_terms (data y) ls) = false ->
    Forall (fun t => 0 < t) (pdf_terms (data y) ls)).
  { intros Ez. apply Forall_forall. intros t Ht.
    pose proof (proj1 (Forall_forall _ _) Hcl t Ht) as H0.
    destruct (Req_dec_T t 0) as [E | E]; [| lra].
    exfalso.
    assert (Hex : existsb (fun t => Reqb t 0) (pdf_terms (data y) ls) = true).
    { apply existsb_exists. exists t. split; [exact Ht |].
      apply Reqb_true_iff. exact E. }
    congruence. }
  destruct (existsb (fun t => Reqb t 0) (pdf_terms (data y) ls)) eqn:Ez.
  - assert (Hq : report (divide s) s = None ->
                 bind (ufunc1 flog (finite_array sh' (pdf_terms (data y) ls)))
                   (fun logs => bind (np_sum logs) (fun total => op1 fexp total))
                   s
                 = (Ok (Fin 0), s)).
    { intros Hr. rewrite Hr in Hlog. erewrite bind_ok by exact Hlog.
      erewrite bind_ok by apply np_sum_log_or_ninf.
      unfold total_log. rewrite Ez. reflexivity. }
    assert (Hf : forall e, report (divide s) s = Some e ->
                 bind (ufunc1 flog (finite_array sh' (pdf_terms (data y) ls)))
                   (fun logs => bind (np_sum logs) (fun total => op1 fexp total))
                   s
                 = (Raise e, s)).
    { intros e Hr. rewrite Hr in Hlog. erewrite bind_fail by exact Hlog.
      reflexivity. }
    clear Hlog.
    unfold report in Hq, Hf.
    destruct (divide s); try (apply Hq; reflexivity);
      try (apply Hf; reflexivity).
    + destruct (warnings_raise s); [apply Hf | apply Hq]; reflexivity.
    + destruct (errcall s) as [| [e |] l]; [apply Hf | apply Hf | apply Hq];
        reflexivity.
    + destruct (errcall s) as [| c [e |]]; [apply Hf | apply Hf | apply Hq];
        reflexivity.
  - erewrite bind_ok by exact Hlog.
    erewrite bind_ok by apply np_sum_log_or_ninf.
    unfold total_log. rewrite Ez. unfold op1. simpl fexp.
    rewrite scalar_op_nocond, exp_sum_ln_is_product
      by (apply Hpos; reflexivity).
    reflexivity.
Qed.

Lemma pdf_link_on_closed_interval_witness :
  pdf_link (__init__ None) (finite_array [2%nat] [0; 1 / 2])
    (vector [Fin 1; Fin 0]) divide_calls
  = if existsb (fun t => Reqb t 0) (pdf_terms [Fin 1; Fin 0] [0; 1 / 2])
    then (Raise (NameError "errcall"%string), divide_calls)
    else (Ok (Fin (prodR (pdf_terms [Fin 1; Fin 0] [0; 1 / 2]))),
          divide_calls).
Proof.
  apply (pdf_link_on_closed_interval (__init__ None) [2%nat] [0; 1 / 2]
           (vector [Fin 1; Fin 0]) divide_calls).
  - reflexivity.
  - repeat constructor; lra.
Defined.

End ExactZero.

(* ===================================================================== *)
(** ** Further properties of the derivative methods *)
(* ===================================================================== *)

Section DerivativesFurther.
Local Open Scope R_scope.

Lemma quotient_at_zero :
  quotient_or_inf (-1) 0 = NInf /\ quotient_or_inf (-2) 0 = NInf.
Proof.
  unfold quotient_or_inf, inf_of_sign. rewrite Reqb_refl.
  rewrite (Rltb_false 0 (-1)), (Rltb_false 0 (-2)) by lra.
  repeat split.
Qed.

Lemma quotient_or_inf_spec (c : R) (f : R -> R) (ls : list R) :
  Forall2 (fun l v => quotient_of c (f l) v) ls
    (map (fun l => quotient_or_inf c (f l)) ls).
Proof.
  induction ls as [|l ls IH]; simpl; constructor; [| exact IH].
  unfold quotient_of, quotient_or_inf, inf_of_sign, is_inf.
  destruct (Req_dec_T (f l) 0) as [E | E].
  - right. split; [exact E |]. rewrite E, Reqb_refl.
    destruct (Rltb 0 c); auto.
  - left. split; [exact E |]. rewrite (Reqb_neq _ _ E). reflexivity.
Qed.

(** X9. For numpy arrays of finite link values (any reals) and labels of a
    matching shape, the three derivative methods never raise, whatever the
    error settings on entry, and leave them as found. Where a denominator is
    not zero the element is the quotient. Where it is exactly 0 the element
    is an infinity: minus infinity for [-1/(1-link_f)], for both branches of
    [d2logpdf_dlink2] and for [-2/(1-link_f)^3]; for [1/link_f] and
    [2/link_f^3] an infinity whose sign is that of the zero, which the
    statement leaves open. (Exact reals: overflow and underflow are outside
    the model. A Python float [link_f] is not covered: see
    [python_zero_division_leaves_divide_ignored].) *)
Theorem derivatives_return_on_finite_links :
  forall self sh ls y s,
    atleast_1d_shape sh = atleast_1d_shape (shape y) ->
    exists g1 g3,
      dlogpdf_dlink self (finite_array sh ls) y s
      = (Ok (mkArr (broadcast_shape (shape y) (broadcast_shape sh sh))
               (select (map truthy (data y))
                  g1
                  (map (fun l => quotient_or_inf (-1) (1 - l)) ls))), s)
      /\ Forall2 (fun l v => quotient_of 1 l v) ls g1
      /\ d2logpdf_dlink2 self (finite_array sh ls) y s
         = (Ok (mkArr (broadcast_shape (shape y) (broadcast_shape sh sh))
                  (select (map truthy (data y))
                     (map (fun l => quotient_or_inf (-1) (l * l)) ls)
                     (map (fun l => quotient_or_inf (-1) ((1 - l) * (1 - l)))
                        ls))), s)
      /\ d3logpdf_dlink3 self (finite_array sh ls) y s
         = (Ok (mkArr (broadcast_shape (shape y) (broadcast_shape sh sh))
                  (select (map truthy (data y))
                     g3
                     (map (fun l =>
                             quotient_or_inf (-2)
                               ((1 - l) * (1 - l) * (1 - l))) ls))), s)
      /\ Forall2 (fun l v => quotient_of 2 (l * l * l) v) ls g3
      /\ quotient_or_inf (-1) 0 = NInf /\ quotient_or_inf (-2) 0 = NInf.
Proof.
  intros self sh ls y s Hsh.
  assert (Hsub : forall st,
             ufunc1 (fsub (Fin 1)) (finite_array sh ls) st
             = (Ok (finite_array sh (map (fun l => 1 - l) ls)), st)).
  { intros st. apply (ufunc1_fin _ (fun l => 1 - l)). intros. apply fsub_fin. }
  exists (map (fun l => quotient_or_inf 1 l) ls),
    (map (fun l => quotient_or_inf 2 (l * l * l)) ls).
  split; [| split; [| split; [| split; [| split]]]].
  - rewrite dlogpdf_dlink_arrays.
    erewrite bind_ok by (apply assert_same_shape_ok; exact Hsh).
    erewrite bind_ok by (unfold seterr_divide; reflexivity).
    erewrite bind_ok by (apply ufunc1_quotient_suppressed; lra).
    erewrite bind_ok by apply Hsub.
    erewrite bind_ok by (apply ufunc1_quotient_suppressed; lra).
    erewrite bind_ok by (unfold seterr_all; reflexivity).
    unfold np_where, ret. cbn [data shape astype_bool].
    rewrite !map_map. reflexivity.
  - apply (quotient_or_inf_spec 1 (fun l => l)).
  - rewrite d2logpdf_dlink2_arrays.
    erewrite bind_ok by (apply assert_same_shape_ok; exact Hsh).
    erewrite bind_ok by (unfold seterr_divide; reflexivity).
    erewrite bind_ok
      by (apply (ufunc1_fin _ (fun l => l * l)); intros; apply fsquare_fin).
    erewrite bind_ok by (apply ufunc1_quotient_suppressed; lra).
    erewrite bind_ok by apply Hsub.
    erewrite bind_ok
      by (apply (ufunc1_fin _ (fun l => l * l)); intros; apply fsquare_fin).
    erewrite bind_ok by (apply ufunc1_quotient_suppressed; lra).
    erewrite bind_ok by (unfold seterr_all; reflexivity).
    unfold np_where, ret. cbn [data shape astype_bool].
    rewrite !map_map. reflexivity.
  - rewrite d3logpdf_dlink3_arrays.
    erewrite bind_ok by (apply assert_same_shape_ok; exact Hsh).
    erewrite bind_ok by (unfold seterr_divide; reflexivity).
    erewrite bind_ok
      by (apply (ufunc1_fin _ (fun l => l * l * l)); intros; apply fcube_fin).
    erewrite bind_ok by (apply ufunc1_quotient_suppressed; lra).
    erewrite bind_ok by apply Hsub.
    erewrite bind_ok
      by (apply (ufunc1_fin _ (fun l => l * l * l)); intros; apply fcube_fin).
    erewrite bind_ok by (apply ufunc1_quotient_suppressed; lra).
    erewrite bind_ok by (unfold seterr_all; reflexivity).
    unfold np_where, ret. cbn [data shape astype_bool].
    rewrite !map_map. reflexivity.
  - apply (quotient_or_inf_spec 2 (fun l => l * l * l)).
  - apply quotient_at_zero.
Qed.

Lemma derivatives_return_on_finite_links_witness :
  exists g1 g3,
    dlogpdf_dlink (__init__ None) (finite_array [2%nat] [0; 1])
      (vector [Fin 1; Fin 0]) divide_raises
    = (Ok (mkArr (broadcast_shape [2%nat] (broadcast_shape [2%nat] [2%nat]))
             (select (map truthy [Fin 1; Fin 0])
                g1
                (map (fun l => quotient_or_inf (-1) (1 - l)) [0; 1]))),
       divide_raises)
    /\ Forall2 (fun l v => quotient_of 1 l v) [0; 1] g1
    /\ d2logpdf_dlink2 (__init__ None) (finite_array [2%nat] [0; 1])
         (vector [Fin 1; Fin 0]) divide_raises
       = (Ok (mkArr (broadcast_shape [2%nat]
                       (broadcast_shape [2%nat] [2%nat]))
                (select (map truthy [Fin 1; Fin 0])
                   (map (fun l => quotient_or_inf (-1) (l * l)) [0; 1])
                   (map (fun l => quotient_or_inf (-1) ((1 - l) * (1 - l)))
                      [0; 1]))), divide_raises)
    /\ d3logpdf_dlink3 (__init__ None) (finite_array [2%nat] [0; 1])
         (vector [Fin 1; Fin 0]) divide_raises
       = (Ok (mkArr (broadcast_shape [2%nat]
                       (broadcast_shape [2%nat] [2%nat]))
                (select (map truthy [Fin 1; Fin 0])
                   g3
                   (map (fun l =>
                           quotient_or_inf (-2)
                             ((1 - l) * (1 - l) * (1 - l))) [0; 1]))),
          divide_raises)
    /\ Forall2 (fun l v => quotient_of 2 (l * l * l) v) [0; 1] g3
    /\ quotient_or_inf (-1) 0 = NInf /\ quotient_or_inf (-2) 0 = NInf.
Proof.
  apply (derivatives_return_on_finite_links (__init__ None) [2%nat] [0; 1]
           (vector [Fin 1; Fin 0]) divide_raises).
  reflexivity.
Defined.

End DerivativesFurther.

(* ===================================================================== *)
(** ** The derivative methods as derivatives *)
(* ===================================================================== *)

Section Calculus.
Local Open Scope R_scope.

(** *** Derivatives of the branch functions *)


Lemma derivable_pt_lim_one_minus (x : R) :
  derivable_pt_lim (fun z => 1 - z) x (-1).
Proof.
  apply (derivable_pt_lim_ext (fct_cte 1 - id)%F); [intros; reflexivity |].
  replace (-1) with (0 - 1) by lra.
  apply derivable_pt_lim_minus;
    [apply derivable_pt_lim_const | apply derivable_pt_lim_id].
Qed.


Lemma derivable_pt_lim_compose (f g : R -> R) (x f' g' : R) :
  derivable_pt_lim f x f' -> derivable_pt_lim g (f x) g' ->
  derivable_pt_lim (fun z => g (f z)) x (g' * f').
Proof.
  intros Hf Hg.
  apply (derivable_pt_lim_ext (comp g f)); [intros; reflexivity |].
  apply derivable_pt_lim_comp; assumption.
Qed.

Lemma derivable_pt_lim_shift (c1 c2 : R) (g : R -> R) (x g' : R) :
  derivable_pt_lim g x g' ->
  derivable_pt_lim (fun z => c1 + (g z + c2)) x g'.
Proof.
  intros Hg.
  apply (derivable_pt_lim_ext (fct_cte c1 + (g + fct_cte c2))%F);
    [intros; reflexivity |].
  replace g' with (0 + (g' + 0)) by lra.
  apply derivable_pt_lim_plus; [apply derivable_pt_lim_const |].
  apply derivable_pt_lim_plus; [exact Hg | apply derivable_pt_lim_const].
Qed.


Lemma deriv_log_one_minus (l : R) :
  l < 1 -> derivable_pt_lim (fun z => ln (1 - z)) l (-1 / (1 - l)).
Proof.
  intros H. replace (-1 / (1 - l)) with (/ (1 - l) * -1) by (field; lra).
  apply (derivable_pt_lim_compose (fun z => 1 - z) ln).
  - apply derivable_pt_lim_one_minus.
  - apply derivable_pt_lim_ln. lra.
Qed.





(** *** One position of an array *)

Lemma unit_open_around pre post z :
  unit_open pre -> unit_open post -> 0 < z < 1 ->
  unit_open (pre ++ z :: post).
Proof.
  intros Hpre Hpost Hz. apply unit_open_app. split; [exact Hpre |].
  apply unit_open_cons. auto.
Qed.

Lemma nth_after_prefix {A} (a : list A) x b d :
  nth (List.length a) (a ++ x :: b) d = x.
Proof. induction a; simpl; auto. Qed.

Lemma logpdf_terms_around ypre yv ypost pre z post :
  List.length ypre = List.length pre ->
  logpdf_terms (ypre ++ yv :: ypost) (pre ++ z :: post)
  = (logpdf_terms ypre pre
     ++ (if feqc yv 1 then ln z else ln (1 - z))
        :: logpdf_terms ypost post)%list.
Proof.
  intros Hlen. unfold logpdf_terms.
  rewrite !map_app. simpl map.
  rewrite select_app by (rewrite !length_map; lia).
  reflexivity.
Qed.

Lemma select_around {A} (f g : R -> A) ypre yv ypost pre z post :
  List.length ypre = List.length pre ->
  select (map truthy (ypre ++ yv :: ypost))
         (map f (pre ++ z :: post)) (map g (pre ++ z :: post))
  = (select (map truthy ypre) (map f pre) (map g pre)
     ++ (if truthy yv then f z else g z)
        :: select (map truthy ypost) (map f post) (map g post))%list.
Proof.
  intros Hlen. rewrite !map_app. simpl map.
  rewrite select_app by (rewrite !length_map; lia).
  reflexivity.
Qed.

Lemma middle_of_select (f g : R -> R) ypre yv ypost pre z post :
  List.length ypre = List.length pre ->
  nth (List.length pre)
      (map Fin (select (map truthy (ypre ++ yv :: ypost))
                       (map f (pre ++ z :: post))
                       (map g (pre ++ z :: post)))) NaN
  = Fin (if truthy yv then f z else g z).
Proof.
  intros Hlen. rewrite select_around by exact Hlen.
  rewrite map_app. simpl map.
  replace (List.length pre)
    with (List.length
            (map Fin (select (map truthy ypre) (map f pre) (map g pre)))).
  - apply nth_after_prefix.
  - rewrite length_map, select_length; rewrite !length_map; lia.
Qed.

(** The log-likelihood as a function of the link value at one position. *)
Lemma logpdf_link_at self sh ypre yv ypost pre post s z :
  List.length ypre = List.length pre ->
  unit_open pre -> unit_open post -> 0 < z < 1 ->
  returned_value
    (logpdf_link self (finite_array sh (pre ++ z :: post))
       (mkArr sh (ypre ++ yv :: ypost))) s
  = sumR (logpdf_terms ypre pre)
    + ((if feqc yv 1 then ln z else ln (1 - z))
       + sumR (logpdf_terms ypost post)).
Proof.
  intros Hlen Hpre Hpost Hz. unfold returned_value.
  rewrite logpdf_link_fin
    by (try reflexivity; apply unit_open_around; assumption).
  simpl. rewrite logpdf_terms_around by exact Hlen.
  rewrite sumR_app. reflexivity.
Qed.

(** The three derivative methods at that position. *)
Lemma dlogpdf_dlink_at self sh ypre yv ypost pre post s z :
  List.length ypre = List.length pre ->
  unit_open pre -> unit_open post -> 0 < z < 1 ->
  returned_element
    (dlogpdf_dlink self (finite_array sh (pre ++ z :: post))
       (mkArr sh (ypre ++ yv :: ypost))) s (List.length pre)
  = if truthy yv then 1 / z else -1 / (1 - z).
Proof.
  intros Hlen Hpre Hpost Hz. unfold returned_element.
  rewrite dlogpdf_dlink_fin
    by (try reflexivity; apply unit_open_around; assumption).
  simpl. rewrite middle_of_select by exact Hlen. reflexivity.
Qed.








(** X12. For a label that is neither 0 nor 1 (for instance the -1 that
    [_preprocess_values] writes) the gradient is not the derivative of the
    log-likelihood: [logpdf_link] treats the label as class 0 and its
    derivative in the link value is [-1/(1-l) < 0], while [dlogpdf_dlink]
    treats it as class 1 and returns [1/l > 0]. (Exact reals.) *)
Theorem gradient_mismatch_outside_labels :
  forall self sh ypre yv ypost pre post s l,
    List.length ypre = List.length pre ->
    unit_open pre -> unit_open post ->
    yv <> Fin 0 -> yv <> Fin 1 ->
    0 < l < 1 ->
    derivable_pt_lim
      (fun z =>
         returned_value
           (logpdf_link self (finite_array sh (pre ++ z :: post))
              (mkArr sh (ypre ++ yv :: ypost))) s)
      l (-1 / (1 - l))
    /\ returned_element
         (dlogpdf_dlink self (finite_array sh (pre ++ l :: post))
            (mkArr sh (ypre ++ yv :: ypost))) s (List.length pre)
       = 1 / l
    /\ ~ derivable_pt_lim
           (fun z =>
              returned_value
                (logpdf_link self (finite_array sh (pre ++ z :: post))
                   (mkArr sh (ypre ++ yv :: ypost))) s)
           l
           (returned_element
              (dlogpdf_dlink self (finite_array sh (pre ++ l :: post))
                 (mkArr sh (ypre ++ yv :: ypost))) s (List.length pre)).
Proof.
  intros self sh ypre yv ypost pre post s l Hlen Hpre Hpost H0 H1 Hl.
  assert (Ht : truthy yv = true).
  { destruct yv as [r | | |]; try reflexivity. simpl.
    rewrite Reqb_neq; [reflexivity |]. intros ->. apply H0. reflexivity. }
  assert (He : feqc yv 1 = false).
  { destruct (feqc yv 1) eqn:E; [| reflexivity].
    apply feqc_true in E. contradiction. }
  assert (Hd : derivable_pt_lim
                 (fun z =>
                    returned_value
                      (logpdf_link self (finite_array sh (pre ++ z :: post))
                         (mkArr sh (ypre ++ yv :: ypost))) s)
                 l (-1 / (1 - l))).
  { apply (derivable_pt_lim_locally_ext
             (fun z => sumR (logpdf_terms ypre pre)
                       + (ln (1 - z) + sumR (logpdf_terms ypost post)))
             _ l 0 1); [exact Hl | |].
    - intros z Hz. rewrite logpdf_link_at by assumption.
      rewrite He. reflexivity.
    - apply derivable_pt_lim_shift. apply deriv_log_one_minus. lra. }
  assert (Hg : returned_element
                 (dlogpdf_dlink self (finite_array sh (pre ++ l :: post))
                    (mkArr sh (ypre ++ yv :: ypost))) s (List.length pre)
               = 1 / l).
  { rewrite dlogpdf_dlink_at by assumption. rewrite Ht. reflexivity. }
  split; [exact Hd |]. split; [exact Hg |].
  rewrite Hg. intros Hd'.
  pose proof (uniqueness_limite _ _ _ _ Hd Hd') as E.
  assert (0 < 1 / l) by (apply Rdiv_lt_0_compat; lra).
  assert (0 < 1 / (1 - l)) by (apply Rdiv_lt_0_compat; lra).
  unfold Rdiv in *. lra.
Qed.

Lemma gradient_mismatch_outside_labels_witness :
  derivable_pt_lim
    (fun z =>
       returned_value
         (logpdf_link (__init__ None) (finite_array [1%nat] ([] ++ z :: []))
            (mkArr [1%nat] ([] ++ Fin (-1) :: []))) default_fpstate)
    (1 / 4) (-1 / (1 - 1 / 4))
  /\ returned_element
       (dlogpdf_dlink (__init__ None)
          (finite_array [1%nat] ([] ++ 1 / 4 :: []))
          (mkArr [1%nat] ([] ++ Fin (-1) :: []))) default_fpstate
       (List.length (@nil R))
     = 1 / (1 / 4)
  /\ ~ derivable_pt_lim
         (fun z =>
            returned_value
              (logpdf_link (__init__ None)
                 (finite_array [1%nat] ([] ++ z :: []))
                 (mkArr [1%nat] ([] ++ Fin (-1) :: []))) default_fpstate)
         (1 / 4)
         (returned_element
            (dlogpdf_dlink (__init__ None)
               (finite_array [1%nat] ([] ++ 1 / 4 :: []))
               (mkArr [1%nat] ([] ++ Fin (-1) :: []))) default_fpstate
            (List.length (@nil R))).
Proof.
  apply (gradient_mismatch_outside_labels (__init__ None) [1%nat]
           [] (Fin (-1)) [] [] [] default_fpstate (1 / 4)).
  - reflexivity.
  - constructor.
  - constructor.
  - intros H. injection H as H. lra.
  - intros H. injection H as H. lra.
  - lra.
Defined.

End Calculus.

(* ===================================================================== *)
(** ** Elements, signs and shapes of the derivative arrays *)
(* ===================================================================== *)

Section Elementwise.
Local Open Scope R_scope.

Lemma nth_select {A} (c : list bool) (a b : list A) (i : nat) (d : A) :
  (i < List.length c)%nat ->
  List.length a = List.length c -> List.length b = List.length c ->
  nth i (select c a b) d = if nth i c false then nth i a d else nth i b d.
Proof.
  revert a b i. induction c as [|ci c IH]; intros [|ai a] [|bi b] i; simpl;
    intros Hi Ha Hb; try discriminate; try lia.
  destruct i as [|i]; [reflexivity |]. apply IH; lia.
Qed.

Lemma nth_map_in {A B} (f : A -> B) (l : list A) (i : nat) (d : B) (d' : A) :
  (i < List.length l)%nat -> nth i (map f l) d = f (nth i l d').
Proof.
  intros Hi. rewrite (nth_indep _ d (f d')) by (rewrite length_map; exact Hi).
  apply map_nth.
Qed.

Lemma element_of_select (f g : R -> R) (ys : list fnum) (ls : list R) k :
  List.length ys = List.length ls -> (k < List.length ls)%nat ->
  nth k (map Fin (select (map truthy ys) (map f ls) (map g ls))) NaN
  = Fin (if truthy (nth k ys NaN) then f (nth k ls 0) else g (nth k ls 0)).
Proof.
  intros Hlen Hk.
  rewrite (nth_map_in Fin _ k NaN 0)
    by (rewrite select_length; rewrite !length_map; lia).
  rewrite nth_select by (rewrite !length_map; lia).
  rewrite (nth_map_in truthy ys k false NaN) by lia.
  rewrite (nth_map_in f ls k 0 0), (nth_map_in g ls k 0 0) by lia.
  reflexivity.
Qed.

(** Element [k] of what the three methods return. *)
Lemma derivative_elements self sh ls y s k :
  atleast_1d_shape sh = atleast_1d_shape (shape y) ->
  List.length (data y) = List.length ls ->
  unit_open ls ->
  (k < List.length ls)%nat ->
  returned_element (dlogpdf_dlink self (finite_array sh ls) y) s k
  = (if truthy (nth k (data y) NaN) then 1 / nth k ls 0
     else -1 / (1 - nth k ls 0))
  /\ returned_element (d2logpdf_dlink2 self (finite_array sh ls) y) s k
     = (if truthy (nth k (data y) NaN) then -1 / (nth k ls 0 * nth k ls 0)
        else -1 / ((1 - nth k ls 0) * (1 - nth k ls 0)))
  /\ returned_element (d3logpdf_dlink3 self (finite_array sh ls) y) s k
     = (if truthy (nth k (data y) NaN)
        then 2 / (nth k ls 0 * nth k ls 0 * nth k ls 0)
        else -2 / ((1 - nth k ls 0) * (1 - nth k ls 0) * (1 - nth k ls 0))).
Proof.
  intros Hsh Hlen Hls Hk. unfold returned_element.
  rewrite dlogpdf_dlink_fin, d2logpdf_dlink2_fin, d3logpdf_dlink3_fin
    by assumption.
  simpl. rewrite !element_of_select by assumption.
  repeat split.
Qed.

Lemma nth_unit_open ls k :
  unit_open ls -> (k < List.length ls)%nat -> 0 < nth k ls 0 < 1.
Proof. intros H Hk. apply (unit_open_In _ _ H). apply nth_In. exact Hk. Qed.

(** X13. Signs and magnitudes. For link values in (0,1), at every position:
    where the label is true as a number the gradient and the third derivative
    exceed 1, elsewhere they are below -1; the second derivative is below -1
    in both cases; and the three are tied by
    [d2 = -(d1)^2] and [d3 = 2 (d1)^3]. (Exact reals.) *)
Theorem derivative_signs_and_relations :
  forall self sh ls y s k,
    atleast_1d_shape sh = atleast_1d_shape (shape y) ->
    List.length (data y) = List.length ls ->
    unit_open ls ->
    (k < List.length ls)%nat ->
    exists g h t,
      g = returned_element (dlogpdf_dlink self (finite_array sh ls) y) s k
      /\ h = returned_element (d2logpdf_dlink2 self (finite_array sh ls) y) s k
      /\ t = returned_element (d3logpdf_dlink3 self (finite_array sh ls) y) s k
      /\ (if truthy (nth k (data y) NaN) then 1 < g /\ 1 < t
          else g < -1 /\ t < -1)
      /\ h < -1
      /\ h = - (g * g)
      /\ t = 2 * (g * g * g).
Proof.
  intros self sh ls y s k Hsh Hlen Hls Hk.
  destruct (derivative_elements self sh ls y s k Hsh Hlen Hls Hk)
    as [Hg [Hh Ht]].
  eexists. eexists. eexists.
  split; [reflexivity |]. split; [reflexivity |]. split; [reflexivity |].
  rewrite Hg, Hh, Ht. clear Hg Hh Ht.
  pose proof (nth_unit_open ls k Hls Hk) as Hl.
  set (l := nth k ls 0) in *.
  assert (Hinv : forall x, 0 < x < 1 -> 1 < / x).
  { intros x Hx. rewrite <- Rinv_1 at 1. apply Rinv_lt_contravar; lra. }
  assert (Hll : 0 < l * l < 1) by nra.
  assert (Hlll : 0 < l * l * l < 1) by nra.
  assert (Hm : 0 < 1 - l < 1) by lra.
  assert (Hmm : 0 < (1 - l) * (1 - l) < 1) by nra.
  assert (Hmmm : 0 < (1 - l) * (1 - l) * (1 - l) < 1) by nra.
  pose proof (Hinv _ Hl). pose proof (Hinv _ Hll). pose proof (Hinv _ Hlll).
  pose proof (Hinv _ Hm). pose proof (Hinv _ Hmm). pose proof (Hinv _ Hmmm).
  destruct (truthy (nth k (data y) NaN)); unfold Rdiv;
    repeat split; try lra; field; lra.
Qed.

Lemma derivative_signs_and_relations_witness :
  exists g h t,
    g = returned_element
          (dlogpdf_dlink (__init__ None) (finite_array [2%nat] [1 / 4; 1 / 2])
             (vector [Fin 1; Fin 0])) default_fpstate 1
    /\ h = returned_element
             (d2logpdf_dlink2 (__init__ None)
                (finite_array [2%nat] [1 / 4; 1 / 2])
                (vector [Fin 1; Fin 0])) default_fpstate 1
    /\ t = returned_element
             (d3logpdf_dlink3 (__init__ None)
                (finite_array [2%nat] [1 / 4; 1 / 2])
                (vector [Fin 1; Fin 0])) default_fpstate 1
    /\ (if truthy (nth 1 (data (vector [Fin 1; Fin 0])) NaN)
        then 1 < g /\ 1 < t else g < -1 /\ t < -1)
    /\ h < -1
    /\ h = - (g * g)
    /\ t = 2 * (g * g * g).
Proof.
  apply (derivative_signs_and_relations (__init__ None) [2%nat]
           [1 / 4; 1 / 2] (vector [Fin 1; Fin 0]) default_fpstate 1%nat).
  - reflexivity.
  - reflexivity.
  - repeat constructor; lra.
  - simpl. lia.
Defined.



End Elementwise.

(* ===================================================================== *)
(** ** Shapes of the derivative arrays, whatever the values *)
(* ===================================================================== *)

Section Shapes.

Lemma bind_inv {S A B} (c : M S A) (k : A -> M S B) s r s' :
  bind c k s = (Ok r, s') ->
  exists a s1, c s = (Ok a, s1) /\ k a s1 = (Ok r, s').
Proof.
  unfold bind. destruct (c s) as [[a | e] s1]; [| discriminate].
  intros H. exists a, s1. auto.
Qed.

Lemma assert_same_shape_inv (link_f y : ndarray fnum) s u s' :
  assert_same_shape link_f y s = (Ok u, s') ->
  atleast_1d_shape (shape link_f) = atleast_1d_shape (shape y) /\ s' = s.
Proof.
  unfold assert_same_shape, assert_. cbn [as_array].
  destruct (shape_eqb _ _) eqn:E; [| discriminate].
  intros H. injection H as _ <-. split; [| reflexivity].
  apply shape_eqb_eq. exact E.
Qed.

Lemma ufunc1_inv f a s r s' :
  ufunc1 f a s = (Ok r, s') ->
  shape r = shape a /\ List.length (data r) = List.length (data a) /\ s' = s.
Proof.
  unfold ufunc1. destruct (report_all _ _); [discriminate |].
  intros H. injection H as <- <-. simpl. rewrite !length_map. auto.
Qed.

Lemma atleast_1d_size s1 s2 :
  atleast_1d_shape s1 = atleast_1d_shape s2 -> shape_size s1 = shape_size s2.
Proof.
  destruct s1 as [|a s1], s2 as [|b s2]; simpl; intros H;
    try reflexivity; try (injection H as <- <-; simpl; lia).
  injection H as -> ->. simpl. lia.
Qed.

Lemma np_where_result (c : ndarray bool) (a b link_f y : ndarray fnum) :
  atleast_1d_shape (shape link_f) = atleast_1d_shape (shape y) ->
  wf link_f -> wf y ->
  shape c = shape y -> List.length (data c) = List.length (data y) ->
  shape a = shape link_f -> List.length (data a) = List.length (data link_f) ->
  shape b = shape link_f -> List.length (data b) = List.length (data link_f) ->
  shape (np_where c a b) = result_shape link_f y /\ wf (np_where c a b).
Proof.
  intros Hsh Hwl Hwy Hc Hcl Ha Hal Hb Hbl.
  pose proof (atleast_1d_size _ _ Hsh) as Hsz.
  unfold wf in *. unfold np_where, result_shape. simpl.
  rewrite Hc, Ha, Hb.
  assert (Hbs : broadcast_shape (shape link_f) (shape link_f) = shape link_f)
    by (destruct (shape link_f); reflexivity).
  rewrite Hbs.
  rewrite select_length by lia.
  split.
  - destruct (shape y); reflexivity.
  - rewrite Hcl, Hwy. destruct (shape y) eqn:E; [| reflexivity].
    cbn [broadcast_shape]. symmetry. exact Hsz.
Qed.

Ltac invert_run H :=
  repeat match type of H with
         | bind (assert_same_shape _ _) _ _ = (Ok _, _) =>
             let u := fresh "u" in let s1 := fresh "s" in
             let Ha := fresh "Hassert" in
             apply bind_inv in H; destruct H as [u [s1 [Ha H]]];
             apply assert_same_shape_inv in Ha; destruct Ha as [Ha ->]
         | bind (seterr_divide _) _ _ = (Ok _, _) =>
             unfold bind at 1, seterr_divide at 1 in H
         | bind (seterr_all _) _ _ = (Ok _, _) =>
             unfold bind at 1, seterr_all at 1 in H
         | bind (ufunc1 _ _) _ _ = (Ok _, _) =>
             let a := fresh "a" in let s1 := fresh "s" in
             let Hu := fresh "Hu" in
             apply bind_inv in H; destruct H as [a [s1 [Hu H]]];
             apply ufunc1_inv in Hu; destruct Hu as [? [? ->]]
         end.

Ltac finish_shape H c a b link_f y :=
  unfold ret in H; injection H as <- <-;
  destruct (np_where_result c a b link_f y) as [E W];
  try assumption; try reflexivity; try congruence;
  try (simpl; apply length_map);
  repeat split; assumption.

(** X15. Whatever the values are (infinities and not-a-number included),
    whenever one of the three derivative methods returns on well-formed
    arrays, the array it returns is well formed and has the shape of [y]
    (that of [link_f] when [y] is 0-d), and the settings are as found: the
    methods are elementwise and never aggregate. *)
Theorem derivative_methods_keep_shape :
  forall self link_f y s,
    wf link_f -> wf y ->
    (forall g s', dlogpdf_dlink self link_f y s = (Ok g, s') ->
       shape g = result_shape link_f y /\ wf g /\ s' = s)
    /\ (forall g s', d2logpdf_dlink2 self link_f y s = (Ok g, s') ->
          shape g = result_shape link_f y /\ wf g /\ s' = s)
    /\ (forall g s', d3logpdf_dlink3 self link_f y s = (Ok g, s') ->
          shape g = result_shape link_f y /\ wf g /\ s' = s).
Proof.
  intros self link_f y s Hwl Hwy.
  split; [| split]; intros g s' H.
  - rewrite dlogpdf_dlink_arrays in H. invert_run H.
    match type of H with
    | ret (np_where ?c ?a ?b) _ = _ => finish_shape H c a b link_f y
    end.
  - rewrite d2logpdf_dlink2_arrays in H. invert_run H.
    match type of H with
    | ret (np_where ?c ?a ?b) _ = _ => finish_shape H c a b link_f y
    end.
  - rewrite d3logpdf_dlink3_arrays in H. invert_run H.
    match type of H with
    | ret (np_where ?c ?a ?b) _ = _ => finish_shape H c a b link_f y
    end.
Qed.

Lemma derivative_methods_keep_shape_witness :
  shape (finite_array [2%nat] [(1 / (1 / 4))%R; (-1 / (1 - 1 / 2))%R])
  = result_shape (finite_array [2%nat] [(1 / 4)%R; (1 / 2)%R])
      (finite_array [2%nat] [1%R; 0%R])
  /\ wf (finite_array [2%nat] [(1 / (1 / 4))%R; (-1 / (1 - 1 / 2))%R])
  /\ default_fpstate = default_fpstate.
Proof.
  apply (proj1 (derivative_methods_keep_shape (__init__ None)
                  (finite_array [2%nat] [(1 / 4)%R; (1 / 2)%R])
                  (finite_array [2%nat] [1%R; 0%R]) default_fpstate
                  eq_refl eq_refl)).
  apply dlogpdf_dlink_two_elements.
Defined.

End Shapes.

(* ===================================================================== *)
(** ** Further properties of _preprocess_values *)
(* ===================================================================== *)

Section PreprocessFurther.
Local Open Scope R_scope.

(** X16. [_preprocess_values] indexes the array with a mask that has one
    entry per element, so valid labels are not enough: on a well-formed,
    non-empty array of labels in {0,1} that is 0-d, or whose first axis is
    not as long as the array has elements (two or more columns), it raises
    [IndexError] instead of relabelling; the input array is unchanged. *)
Theorem preprocess_values_index_error :
  forall self (h : heap) (Y : ref) y,
    nth_error h Y = Some y ->
    wf y ->
    Forall is_label (data y) ->
    data y <> [] ->
    (shape y = []
     \/ exists n rest, shape y = n :: rest /\ List.length (data y) <> n) ->
    _preprocess_values self Y h = (Raise IndexError, (h ++ [y])%list)
    /\ nth_error (h ++ [y])%list Y = Some y.
Proof.
  intros self h Y y HY Hwf _ _ Hshape.
  split; [| apply nth_error_kept; exact HY].
  unfold _preprocess_values.
  erewrite bind_ok by (unfold load; rewrite HY; reflexivity).
  erewrite bind_ok by (unfold alloc; reflexivity).
  erewrite bind_fail; [reflexivity |].
  unfold lift, getitem_mask.
  destruct Hshape as [-> | [n [rest [-> Hne]]]]; [reflexivity |].
  unfold flatten_eq. rewrite length_map.
  rewrite (proj2 (Nat.eqb_neq _ _) Hne). reflexivity.
Qed.

Lemma preprocess_values_index_error_witness :
  _preprocess_values (__init__ None) 0%nat
    [float_array [2%nat; 3%nat] [0; 1; 1; 0; 0; 1]]
  = (Raise IndexError,
     [float_array [2%nat; 3%nat] [0; 1; 1; 0; 0; 1];
      float_array [2%nat; 3%nat] [0; 1; 1; 0; 0; 1]])
  /\ nth_error [float_array [2%nat; 3%nat] [0; 1; 1; 0; 0; 1];
                float_array [2%nat; 3%nat] [0; 1; 1; 0; 0; 1]] 0%nat
     = Some (float_array [2%nat; 3%nat] [0; 1; 1; 0; 0; 1]).
Proof.
  apply (preprocess_values_index_error (__init__ None)
           [float_array [2%nat; 3%nat] [0; 1; 1; 0; 0; 1]] 0%nat
           (float_array [2%nat; 3%nat] [0; 1; 1; 0; 0; 1])).
  - reflexivity.
  - reflexivity.
  - simpl. repeat (apply Forall_cons; [first [left; reflexivity
                                             | right; reflexivity] |]).
    apply Forall_nil.
  - simpl. discriminate.
  - right. exists 2%nat, [3%nat]. split; [reflexivity |].
    simpl. discriminate.
Defined.

Lemma relabel_zero_not_label : ~ is_label (relabel (Fin 0)).
Proof.
  rewrite relabel_zero. intros [H | H]; injection H as H; lra.
Qed.

(** X17. [_preprocess_values] is not idempotent on arrays that can hold
    -1: it accepts labels in {0,1} and produces labels in {-1,1}, so when the
    input (floating-point or signed-integer dtype, shape [(N,)] or [(N,1)],
    all labels 0 or 1) contains a 0, a second call on the array just returned
    raises the [AssertionError] about outputs in {0, 1}. (A boolean array
    stores -1 as [True] and is accepted again: see
    [preprocess_values_accepts_bool_output].) *)
Theorem preprocess_values_rejects_its_own_output :
  forall self (h : heap) (Y : ref) y n rest,
    nth_error h Y = Some y ->
    shape y = n :: rest ->
    List.length (data y) = n ->
    wf y ->
    dtype_of y = Float \/ dtype_of y = SignedInt ->
    Forall is_label (data y) ->
    In (Fin 0) (data y) ->
    exists Y_prep h',
      _preprocess_values self Y h = (Ok Y_prep, h')
      /\ fst (_preprocess_values self Y_prep h')
         = Raise (AssertionError labels_message).
Proof.
  intros self h Y y n rest HY Hsh Hlen Hwf Hd Hlab Hzero.
  pose proof (preprocess_values_run self h Y y n rest HY Hsh Hlen Hwf) as Hrun.
  unfold flatten_eq in Hrun.
  rewrite (count_masks_labels _ Hlab), Hlen, Nat.eqb_refl in Hrun.
  rewrite (map_ext _ _ (fun v => relabel_as_signed _ v Hd)) in Hrun.
  eexists. eexists. split; [exact Hrun |].
  set (y' := mkObj (dtype_of y) (mkArr (shape y) (map relabel (data y)))).
  assert (HY' : nth_error (h ++ [y'])%list (List.length h) = Some y')
    by apply nth_error_last.
  assert (Hlen' : List.length (data y') = n)
    by (unfold y'; simpl; rewrite length_map; exact Hlen).
  assert (Hwf' : wf y').
  { unfold wf, y'. simpl. rewrite length_map. exact Hwf. }
  rewrite (preprocess_values_run self _ _ y' n rest HY' Hsh Hlen' Hwf').
  assert (Hbad : Exists (fun v => ~ is_label v) (data y')).
  { apply Exists_exists. exists (relabel (Fin 0)). split.
    - unfold y'. simpl. apply in_map. exact Hzero.
    - apply relabel_zero_not_label. }
  pose proof (count_masks_bad _ Hbad) as Hlt. rewrite Hlen' in Hlt.
  unfold flatten_eq. rewrite (proj2 (Nat.eqb_neq _ n)) by lia.
  reflexivity.
Qed.

Lemma preprocess_values_rejects_its_own_output_witness :
  exists Y_prep h',
    _preprocess_values (__init__ None) 0%nat [float_array [2%nat] [1; 0]]
    = (Ok Y_prep, h')
    /\ fst (_preprocess_values (__init__ None) Y_prep h')
       = Raise (AssertionError labels_message).
Proof.
  apply (preprocess_values_rejects_its_own_output (__init__ None)
           [float_array [2%nat] [1; 0]] 0%nat
           (float_array [2%nat] [1; 0]) 2%nat []).
  - reflexivity.
  - reflexivity.
  - reflexivity.
  - reflexivity.
  - left. reflexivity.
  - simpl. apply Forall_cons; [right; reflexivity |].
    apply Forall_cons; [left; reflexivity | apply Forall_nil].
  - simpl. right. left. reflexivity.
Defined.

(** The boolean array [True, True] that the first call returns for the
    labels [True, False] passes the validation of a second call. *)
Example preprocess_values_accepts_bool_output :
  _preprocess_values (__init__ None) 1%nat
    [mkObj Boolean (finite_array [2%nat] [1; 0]);
     mkObj Boolean (finite_array [2%nat] [1; 1])]
  = (Ok 2%nat,
     [mkObj Boolean (finite_array [2%nat] [1; 0]);
      mkObj Boolean (finite_array [2%nat] [1; 1]);
      mkObj Boolean (finite_array [2%nat] [1; 1])]).
Proof.
  rewrite (preprocess_values_run _ _ _
             (mkObj Boolean (finite_array [2%nat] [1; 1])) 2%nat [])
    by reflexivity.
  unfold flatten_eq, count_true, relabel_as. simpl.
  rewrite !Reqb_refl, !(Reqb_neq 1 0) by lra.
  reflexivity.
Qed.

(** *** The prepared labels in the likelihood methods *)

Lemma relabel_truthy ys :
  Forall is_label ys -> map truthy (map relabel ys) = map (fun _ => true) ys.
Proof.
  induction 1 as [|v t Hv _ IH]; simpl; [reflexivity |].
  rewrite IH. f_equal. destruct Hv as [-> | ->].
  - rewrite relabel_zero. simpl. rewrite Reqb_neq by lra. reflexivity.
  - rewrite relabel_one. simpl. rewrite Reqb_neq by lra. reflexivity.
Qed.

Lemma relabel_eq_one ys :
  Forall is_label ys ->
  map (fun v => feqc v 1) (map relabel ys) = map (fun v => feqc v 1) ys.
Proof.
  induction 1 as [|v t Hv _ IH]; simpl; [reflexivity |].
  rewrite IH. f_equal. destruct Hv as [-> | ->].
  - rewrite relabel_zero. simpl. rewrite !Reqb_neq by lra. reflexivity.
  - rewrite relabel_one. reflexivity.
Qed.

Lemma select_all_true {A B} (ys : list B) (a b : list A) :
  List.length a = List.length ys -> List.length b = List.length ys ->
  select (map (fun _ => true) ys) a b = a.
Proof.
  revert a b. induction ys as [|y ys IH]; intros [|ai a] [|bi b]; simpl;
    intros Ha Hb; try discriminate; [reflexivity |].
  rewrite IH by lia. reflexivity.
Qed.

(** X18. The labels written by [_preprocess_values] are read differently by
    the likelihood methods. Let [ys] be labels in {0,1}, as many as there are
    link values (all in (0,1)), and [map relabel ys] the prepared labels
    (0 rewritten to -1). [logpdf_link] returns the same value for the
    prepared labels as for [ys]; [pdf_link] and [dlogpdf_dlink] take every
    prepared label for class 1: they return the product of all link values
    and the reciprocals of all link values, whatever [ys] is.
    (Exact reals.) *)
Theorem prepared_labels_in_likelihood_methods :
  forall self sh ls ys s,
    List.length ys = List.length ls ->
    unit_open ls ->
    Forall is_label ys ->
    logpdf_link self (finite_array sh ls) (mkArr sh (map relabel ys)) s
    = logpdf_link self (finite_array sh ls) (mkArr sh ys) s
    /\ pdf_link self (finite_array sh ls) (mkArr sh (map relabel ys)) s
       = (Ok (Fin (prodR ls)), s)
    /\ dlogpdf_dlink self (finite_array sh ls) (mkArr sh (map relabel ys)) s
       = (Ok (finite_array sh (map (fun l => 1 / l) ls)), s).
Proof.
  intros self sh ls ys s Hlen Hls Hlab.
  split; [| split].
  - rewrite !logpdf_link_fin by (try reflexivity; exact Hls).
    unfold logpdf_terms. simpl data.
    rewrite (relabel_eq_one _ Hlab). reflexivity.
  - rewrite pdf_link_product by (try reflexivity; exact Hls).
    unfold pdf_terms. simpl data. rewrite (relabel_truthy _ Hlab).
    rewrite select_all_true by (rewrite ?length_map; lia).
    reflexivity.
  - rewrite dlogpdf_dlink_fin by (try reflexivity; exact Hls).
    simpl data. simpl shape. rewrite (relabel_truthy _ Hlab).
    rewrite select_all_true by (rewrite ?length_map; lia).
    rewrite !broadcast_shape_same.
    destruct sh; reflexivity.
Qed.

Lemma prepared_labels_in_likelihood_methods_witness :
  logpdf_link (__init__ None) (finite_array [2%nat] [1 / 4; 1 / 2])
    (mkArr [2%nat] (map relabel [Fin 1; Fin 0])) default_fpstate
  = logpdf_link (__init__ None) (finite_array [2%nat] [1 / 4; 1 / 2])
      (mkArr [2%nat] [Fin 1; Fin 0]) default_fpstate
  /\ pdf_link (__init__ None) (finite_array [2%nat] [1 / 4; 1 / 2])
       (mkArr [2%nat] (map relabel [Fin 1; Fin 0])) default_fpstate
     = (Ok (Fin (prodR [1 / 4; 1 / 2])), default_fpstate)
  /\ dlogpdf_dlink (__init__ None) (finite_array [2%nat] [1 / 4; 1 / 2])
       (mkArr [2%nat] (map relabel [Fin 1; Fin 0])) default_fpstate
     = (Ok (finite_array [2%nat] (map (fun l => 1 / l) [1 / 4; 1 / 2])),
        default_fpstate).
Proof.
  apply (prepared_labels_in_likelihood_methods (__init__ None) [2%nat]
           [1 / 4; 1 / 2] [Fin 1; Fin 0] default_fpstate).
  - reflexivity.
  - repeat constructor; lra.
  - apply Forall_cons; [right; reflexivity |].
    apply Forall_cons; [left; reflexivity | apply Forall_nil].
Defined.

End PreprocessFurther.
